(** * ml-replications: mixture-of-experts cache, auxiliary losses and expert merging

    A shallow embedding of
    - [mixture_of_experts/cache.py]   ([MoELayerCache], [MoEFullCache]),
    - [moet_experiment/hf_model.py]   (the five auxiliary losses),
    - [mixture_of_experts/experts.py] ([Expert.forward],
      [ExpertList.merge_weights_and_biases]),
    and of the MoE layer that the tests of [moet_experiment] exercise, which
    is modelled from the specification because its module is not among the
    sources.

    Tensors are nested lists indexed by position (axis 0 outermost); a torch
    tensor is always rectangular, so the lemmas that need it assume it.
    Tensor entries are real numbers: floating-point arithmetic is idealised
    as exact arithmetic on [R].  Python exceptions are values of [exn]. *)

From Stdlib Require Import Reals Lra Lia String ZArith QArith Bool List.
Import ListNotations.
Open Scope R_scope.

(* ================================================================== *)
(** * Exceptions *)

Inductive exn : Set :=
| AssertionError
| RuntimeError
| AttributeError
| IndexError.

Inductive result (A : Type) : Type :=
| Ok (a : A)
| Raise (e : exn).
Arguments Ok {A} a.
Arguments Raise {A} e.

Definition bind {A B : Type} (r : result A) (k : A -> result B) : result B :=
  match r with
  | Ok a => k a
  | Raise e => Raise e
  end.

Notation "x <- r ;; k" := (bind r (fun x => k))
  (at level 61, r at next level, right associativity).

Fixpoint mapM {A B : Type} (f : A -> result B) (l : list A) : result (list B) :=
  match l with
  | [] => Ok []
  | a :: l' => b <- f a ;; bs <- mapM f l' ;; Ok (b :: bs)
  end.

(* ================================================================== *)
(** * Tensors *)

Module Tensor.

Definition vec := list R.
Definition mat := list vec.
Definition tensor3 := list mat.
Definition tensor4 := list tensor3.

(** Sum of all entries of a one-dimensional tensor. *)
Definition Rsum (v : vec) : R := fold_right Rplus 0 v.

(** Row lengths of a matrix; two matrices have the same shape when these agree. *)
Definition row_lengths (m : mat) : list nat := map (@length R) m.

Definition same_shape2 (a b : mat) : bool :=
  if list_eq_dec Nat.eq_dec (row_lengths a) (row_lengths b) then true else false.

Definition same_shape1 (a b : vec) : bool := Nat.eqb (length a) (length b).

(** Size of axis 1 of a matrix (the length of its rows). *)
Definition ncols (m : mat) : nat :=
  match m with
  | [] => 0%nat
  | r :: _ => length r
  end.

(** [rect r c m]: [m] is an [r] x [c] matrix. *)
Definition rect (r c : nat) (m : mat) : Prop :=
  length m = r /\ Forall (fun row => length row = c) m.

(** [t.stack(ts, dim=0)]: raises on an empty list and on tensors of
    different shapes. *)
Definition stack {A : Type} (same : A -> A -> bool) (ts : list A) : result (list A) :=
  match ts with
  | [] => Raise RuntimeError
  | t0 :: rest => if forallb (same t0) rest then Ok ts else Raise RuntimeError
  end.

(** [F.softmax(v, dim)] along one axis. *)
Definition softmax (v : vec) : vec :=
  let s := Rsum (map exp v) in map (fun x => exp x / s) v.

(** [t.logsumexp(v, dim)] along one axis. *)
Definition logsumexp (v : vec) : R := ln (Rsum (map exp v)).

(** [t.mean] of a one-dimensional tensor. *)
Definition mean (v : vec) : R := Rsum v / INR (length v).

(** [t.std] of a one-dimensional tensor (Bessel's correction, the default). *)
Definition std (v : vec) : R :=
  let mu := mean v in
  sqrt (Rsum (map (fun x => (x - mu) * (x - mu)) v) / (INR (length v) - 1)).

(** Column [j] of a matrix. *)
Definition column (j : nat) (m : mat) : vec := map (fun row => nth j row 0) m.

(** [m.T]. *)
Definition transpose (m : mat) : mat := map (fun j => column j m) (seq 0 (ncols m)).

(** [t.sum(m, dim=0)]: out[j] = sum_i m[i][j]. *)
Definition sum_dim0 (m : mat) : vec := map Rsum (transpose m).

(** [t.mean(m, dim=1)]: out[i] = mean_j m[i][j]. *)
Definition mean_dim1 (m : mat) : vec := map mean m.

(** einops [reduce(x, "a b c -> a b", "sum")]. *)
Definition reduce_sum_last (x : tensor3) : mat := map (map Rsum) x.

(** einops [reduce(x, "layer expert batch_seq k -> layer expert", "sum")]. *)
Definition reduce_sum_last2 (x : tensor4) : mat :=
  map (map (fun m => Rsum (map Rsum m))) x.

(** einops [rearrange(x, "a b ... -> (a b) ...")]. *)
Definition flatten01 {A : Type} (x : list (list A)) : list A := concat x.

(** Pointwise product of two vectors of the same length. *)
Definition vmul (a b : vec) : vec := map (fun p => fst p * snd p) (combine a b).

(** einops [einsum(a, b, "layer expert, layer expert ->")]: the two operands
    must agree on both axes. *)
Definition einsum_dot2 (a b : mat) : result R :=
  if same_shape2 a b
  then Ok (Rsum (map (fun p => Rsum (vmul (fst p) (snd p))) (combine a b)))
  else Raise RuntimeError.

(** einops [einsum(x, "layer num_experts ->")]. *)
Definition einsum_total (x : mat) : R := Rsum (map Rsum x).

(** Division of every entry by a scalar. *)
Definition mdiv (x : mat) (d : R) : mat := map (map (fun a => a / d)) x.

(** The vector [f 0; ...; f (n-1)] and the [a] x [b] matrix of the [f i j]. *)
Definition tab1 (n : nat) (f : nat -> R) : vec := map f (seq 0 n).
Definition tab2 (a b : nat) (f : nat -> nat -> R) : mat :=
  map (fun i => tab1 b (f i)) (seq 0 a).

End Tensor.
Import Tensor.

(* ================================================================== *)
(** * [mixture_of_experts/cache.py] *)

Module Cache.

(** The dataclass [MoELayerCache]. *)
Record MoELayerCache : Type := mkMoELayerCache {
  G : mat;
  token_assignments : list (list Z);
  routing_weights : mat
}.

(** Python values that can reach [__setitem__] and the constructor: type
    annotations are not checked at run time ([@typechecked] is commented
    out in the source). *)
Inductive pyobj : Type :=
| PyLayerCache (c : MoELayerCache)
| PyInt (z : Z)
| PyStr (s : string)
| PyNone.

(** [isinstance(cache, MoELayerCache)]. *)
Definition isinstance_MoELayerCache (v : pyobj) : bool :=
  match v with
  | PyLayerCache _ => true
  | _ => false
  end.

(** A Python [dict]: keys are unique and keep their insertion order. *)
Definition dict (V : Type) := list (string * V).

(** [dict.__setitem__]: an existing key keeps its position, a new key goes
    last. *)
Fixpoint dict_setitem {V : Type} (d : dict V) (k : string) (v : V) : dict V :=
  match d with
  | [] => [(k, v)]
  | (k', v') :: d' =>
      if String.eqb k' k then (k', v) :: d' else (k', v') :: dict_setitem d' k v
  end.

Fixpoint dict_get {V : Type} (d : dict V) (k : string) : option V :=
  match d with
  | [] => None
  | (k', v') :: d' => if String.eqb k' k then Some v' else dict_get d' k
  end.

Definition values {V : Type} (d : dict V) : list V := map snd d.

(** [class MoEFullCache(Dict[str, MoELayerCache])]. *)
Definition MoEFullCache := dict pyobj.

(** [MoEFullCache.__init__]: [super().__init__(moe_cache_dict)] copies the
    entries of its argument; [dict.__init__] does not go through the
    subclass's [__setitem__]. *)
Definition __init__ (moe_cache_dict : dict pyobj) : MoEFullCache := moe_cache_dict.

(** [MoEFullCache.__setitem__]. *)
Definition __setitem__ (self : MoEFullCache) (idx : string) (cache : pyobj)
  : result MoEFullCache :=
  if isinstance_MoELayerCache cache
  then Ok (dict_setitem self idx cache)
  else Raise AssertionError.

(** Attribute access [cache.routing_weights]. *)
Definition get_routing_weights (v : pyobj) : result mat :=
  match v with
  | PyLayerCache c => Ok (routing_weights c)
  | _ => Raise AttributeError
  end.

(** The property [MoEFullCache.routing_weights_tensor]. *)
Definition routing_weights_tensor (self : MoEFullCache) : result tensor3 :=
  ts <- mapM get_routing_weights (values self) ;;
  stack same_shape2 ts.

(** Every entry of the mapping is a [MoELayerCache]. *)
Definition all_layer_caches (self : MoEFullCache) : Prop :=
  Forall (fun kv => isinstance_MoELayerCache (snd kv) = true) self.

(** One insertion [self[idx] = cache]: an insertion that raises leaves the
    mapping as it was. *)
Definition try_setitem (self : MoEFullCache) (kv : string * pyobj) : MoEFullCache :=
  match __setitem__ self (fst kv) (snd kv) with
  | Ok self' => self'
  | Raise _ => self
  end.

(** A sequence of insertions, in order. *)
Definition insertions (self : MoEFullCache) (kvs : list (string * pyobj)) : MoEFullCache :=
  fold_left try_setitem kvs self.

(** The property [MoEFullCache.layer_indices]. *)
Definition layer_indices (self : MoEFullCache) : list string := map fst self.

End Cache.
Import Cache.

(* ================================================================== *)
(** * [moet_experiment/hf_model.py]: the auxiliary losses *)

Module HfModel.

(** Modelled from the spec: the class [TokenChoiceFullCache] that the loss
    functions receive is not in the sources.  Its entries and its
    [routing_weights_tensor] are those of [MoEFullCache]; the attributes
    [num_experts], [num_tokens] and [P] (axes: layer, expert, batch_seq, k),
    which the losses only read, are fields. *)
Record TokenChoiceFullCache : Type := mkTokenChoiceFullCache {
  entries : MoEFullCache;
  num_experts : nat;
  num_tokens : nat;
  P : tensor4
}.

(** [F.softmax(moe_cache.routing_weights_tensor, dim=-1)], which is also
    [F.softmax(..., dim=2)] on a tensor of three axes. *)
Definition routing_probs (rw : tensor3) : tensor3 := map (map softmax) rw.

Definition load_balancing_aux_loss_function (moe_cache : TokenChoiceFullCache)
  : result R :=
  let num_experts := INR (num_experts moe_cache) in
  let num_tokens := INR (num_tokens moe_cache) in
  let total_tokens_per_expert := reduce_sum_last2 (P moe_cache) in
  let frac_tokens_per_expert := mdiv total_tokens_per_expert num_tokens in
  rw <- routing_weights_tensor (entries moe_cache) ;;
  let routing_probs := routing_probs rw in
  let total_router_prob_per_expert := reduce_sum_last routing_probs in
  let frac_router_prob_per_expert := mdiv total_router_prob_per_expert num_tokens in
  d <- einsum_dot2 frac_tokens_per_expert frac_router_prob_per_expert ;;
  Ok (num_experts * d).

Definition router_z_loss_function (moe_cache : TokenChoiceFullCache) : result R :=
  router_logits <- routing_weights_tensor (entries moe_cache) ;;
  let lse_logits := map (map logsumexp) router_logits in
  let squared_lse_logits := map (map (fun x => x ^ 2)) lse_logits in
  let z_loss := einsum_total squared_lse_logits / INR (num_tokens moe_cache) in
  Ok z_loss.

(** [flat_expert_importance] of [expert_importance_loss]. *)
Definition flat_expert_importance (rw : tensor3) : vec :=
  flatten01 (reduce_sum_last (routing_probs rw)).

(** The divisor of [expert_importance_loss]. *)
Definition mean_expert_importance (rw : tensor3) : R :=
  mean (flat_expert_importance rw).

Definition std_expert_importance (rw : tensor3) : R :=
  std (flat_expert_importance rw).

Definition expert_importance_loss (moe_cache : TokenChoiceFullCache) : result R :=
  routing_weights <- routing_weights_tensor (entries moe_cache) ;;
  Ok ((std_expert_importance routing_weights
       / mean_expert_importance routing_weights) ^ 2).

(** [flat_routing_probs] of the two entropy losses: axis 0 is
    (layer num_experts), axis 1 is batch_seq. *)
Definition flat_routing_probs (rw : tensor3) : mat := flatten01 (routing_probs rw).

(** [x * t.log(x)] entrywise. *)
Definition xlogx (x : R) : R := x * ln x.

(** [- t.sum(flat_routing_probs * t.log(flat_routing_probs), dim=0)]. *)
Definition local_entropy (rw : tensor3) : vec :=
  map Ropp (sum_dim0 (map (map xlogx) (flat_routing_probs rw))).

Definition local_entropy_loss (moe_cache : TokenChoiceFullCache) : result R :=
  routing_weights <- routing_weights_tensor (entries moe_cache) ;;
  Ok (mean (local_entropy routing_weights)).

(** [t.mean(flat_routing_probs, dim=1)]. *)
Definition global_routing_probs (rw : tensor3) : vec :=
  mean_dim1 (flat_routing_probs rw).

Definition global_entropy_loss (moe_cache : TokenChoiceFullCache) : result R :=
  routing_weights <- routing_weights_tensor (entries moe_cache) ;;
  Ok (- Rsum (map xlogx (global_routing_probs routing_weights))).

End HfModel.
Import HfModel.

(* ================================================================== *)
(** * [mixture_of_experts/experts.py] *)

Module Experts.

(** The parameters [class Expert] takes from its two [nn.Linear] layers. *)
Record Expert : Type := mkExpert {
  up_expert_weight : mat;
  up_expert_bias : vec;
  down_expert_weight : mat;
  down_expert_bias : vec
}.

(** [nn.Linear] / [F.linear(x, weight, bias)] on one feature vector:
    [weight] has one row per output feature; a shape mismatch raises. *)
Definition linear (weight : mat) (bias : vec) (x : vec) : result vec :=
  if forallb (fun row => Nat.eqb (length row) (length x)) weight
     && Nat.eqb (length bias) (length weight)
  then Ok (map (fun wb => Rsum (vmul (fst wb) x) + snd wb) (combine weight bias))
  else Raise RuntimeError.

Section ExpertForward.

(** The activation [act_fn], applied entrywise, and the action of
    [nn.Dropout(dropout)] on a vector (the identity in evaluation mode). *)
Variable act_fn : R -> R.
Variable dropout : vec -> vec.

(** [Expert.forward]: up_expert, act_fn, down_expert, expert_dropout. *)
Definition Expert_forward (self : Expert) (x : vec) : result vec :=
  h <- linear (up_expert_weight self) (up_expert_bias self) x ;;
  y <- linear (down_expert_weight self) (down_expert_bias self) (map act_fn h) ;;
  Ok (dropout y).

End ExpertForward.

(** The dataclass [ExpertLinearParams]. *)
Record ExpertLinearParams : Type := mkExpertLinearParams {
  p_up_expert_weight : mat;
  p_up_expert_bias : vec;
  p_down_expert_weight : mat;
  p_down_expert_bias : vec
}.

(** [class ExpertList]: [self.experts]. *)
Definition ExpertList := list Expert.

Definition up_expert_weights (self : ExpertList) : result tensor3 :=
  stack same_shape2 (map up_expert_weight self).

Definition up_expert_biases (self : ExpertList) : result mat :=
  stack same_shape1 (map up_expert_bias self).

Definition down_expert_weights (self : ExpertList) : result tensor3 :=
  stack same_shape2 (map down_expert_weight self).

Definition down_expert_biases (self : ExpertList) : result mat :=
  stack same_shape1 (map down_expert_bias self).

(** Sizes of axes 1 and 2 of a stacked tensor. *)
Definition axis1 (w : tensor3) : nat :=
  match w with
  | [] => 0%nat
  | m :: _ => length m
  end.

Definition axis2 (w : tensor3) : nat :=
  match w with
  | [] => 0%nat
  | m :: _ => ncols m
  end.

(** Entry [w[e][i][j]] and [v[e]]. *)
Definition at3 (w : tensor3) (e i j : nat) : R := nth j (nth i (nth e w []) []) 0.
Definition at2 (m : mat) (e i : nat) : R := nth i (nth e m []) 0.
Definition at1 (v : vec) (e : nat) : R := nth e v 0.

(** [helpers.einsum] is not in the sources; it is Einstein summation with
    the pattern as first argument.
    [einsum("e a b, e -> b a", w, m)]: out[j][i] = sum_e w[e][i][j] * m[e];
    the operands must agree on axis [e]. *)
Definition einsum_eab_e__ba (w : tensor3) (m : vec) : result mat :=
  if Nat.eqb (length w) (length m)
  then Ok (map (fun j =>
              map (fun i =>
                Rsum (map (fun e => at3 w e i j * at1 m e) (seq 0 (length w))))
              (seq 0 (axis1 w)))
           (seq 0 (axis2 w)))
  else Raise RuntimeError.

(** [einsum("e a, e -> a", b, m)]: out[i] = sum_e b[e][i] * m[e]. *)
Definition einsum_ea_e__a (b : mat) (m : vec) : result vec :=
  if Nat.eqb (length b) (length m)
  then Ok (map (fun i => Rsum (map (fun e => at2 b e i * at1 m e) (seq 0 (length b))))
           (seq 0 (ncols b)))
  else Raise RuntimeError.

Definition merge_weights_and_biases (self : ExpertList) (merging_weights : vec)
  : result ExpertLinearParams :=
  uw <- up_expert_weights self ;;
  new_up_weights <- einsum_eab_e__ba uw merging_weights ;;
  ub <- up_expert_biases self ;;
  new_up_biases <- einsum_ea_e__a ub merging_weights ;;
  dw <- down_expert_weights self ;;
  new_down_weights <- einsum_eab_e__ba dw merging_weights ;;
  db <- down_expert_biases self ;;
  new_down_biases <- einsum_ea_e__a db merging_weights ;;
  Ok (mkExpertLinearParams new_up_weights new_up_biases new_down_weights new_down_biases).

(** The weighted sum of the claim, sum_e m[e] * t_e, written with scaling
    and entrywise addition of whole tensors. *)
Definition vscale (a : R) (v : vec) : vec := map (Rmult a) v.
Definition vadd (u v : vec) : vec := map (fun p => fst p + snd p) (combine u v).
Definition mscale (a : R) (t : mat) : mat := map (vscale a) t.
Definition madd (s t : mat) : mat := map (fun p => vadd (fst p) (snd p)) (combine s t).

Fixpoint weighted_sum_vec (m : vec) (ts : list vec) : vec :=
  match m, ts with
  | a :: m', t :: ts' =>
      match ts' with
      | [] => vscale a t
      | _ :: _ => vadd (vscale a t) (weighted_sum_vec m' ts')
      end
  | _, _ => []
  end.

Fixpoint weighted_sum_mat (m : vec) (ts : list mat) : mat :=
  match m, ts with
  | a :: m', t :: ts' =>
      match ts' with
      | [] => mscale a t
      | _ :: _ => madd (mscale a t) (weighted_sum_mat m' ts')
      end
  | _, _ => []
  end.

(** The one-hot vector of length [n] on position [i]. *)
Definition one_hot (n i : nat) : vec :=
  map (fun e => if Nat.eqb e i then 1 else 0) (seq 0 n).

(** The tensors of an expert have the shapes [a] x [b], [p], [c] x [d], [q]. *)
Definition expert_of_shape (a b p c d q : nat) (e : Expert) : Prop :=
  rect a b (up_expert_weight e) /\ length (up_expert_bias e) = p /\
  rect c d (down_expert_weight e) /\ length (down_expert_bias e) = q.

(** The parameters of one expert, and the same with both weight matrices
    transposed. *)
Definition params_of (e : Expert) : ExpertLinearParams :=
  mkExpertLinearParams (up_expert_weight e) (up_expert_bias e)
                       (down_expert_weight e) (down_expert_bias e).

Definition transposed_params_of (e : Expert) : ExpertLinearParams :=
  mkExpertLinearParams (transpose (up_expert_weight e)) (up_expert_bias e)
                       (transpose (down_expert_weight e)) (down_expert_bias e).

End Experts.
Import Experts.

(* ================================================================== *)
(** * The MoE layer of the specification *)

Module GroupMoE.

(** Modelled from the spec: the configuration object of section 6
    ([num_experts], [k], [c], [group_size], [router_str]) with the
    [hidden_size] the tests read from it; [moet_experiment/moet_config.py]
    is not in the sources. *)
Record MoEConfig : Type := mkMoEConfig {
  num_experts : nat;
  k : nat;
  c : Q;
  group_size : nat;
  router_str : string;
  hidden_size : nat
}.

(** Modelled from the spec: the router variants of section 4.1; the learned
    router is a linear projection with one row of weights per expert. *)
Inductive Router : Type :=
| HashRouter
| LinearRouter (weight : mat).

(** Modelled from the spec: the layer [GroupMoELayer] of
    [moet_experiment/group_moe_layer.py], which is not in the sources: a
    router, an assignment policy and a bank of experts. *)
Record GroupMoELayer : Type := mkGroupMoELayer {
  config : MoEConfig;
  layer_id : string;
  router : Router;
  experts : ExpertList
}.

(** Modelled from the spec: "exactly one of k or c must be nonzero". *)
Definition valid_k_c (cfg : MoEConfig) : bool :=
  xorb (Nat.eqb (k cfg) 0) (Qeq_bool (c cfg) 0).

(** Modelled from the spec: construction of [GroupMoELayer] (sections 4.2
    and 7): a router string outside {"hash", "linear"} and an invalid (k, c)
    fail at construction with an assertion error, as the tests expect. *)
Definition __init__ (cfg : MoEConfig) (id : string)
    (router_weight : mat) (bank : ExpertList) : result GroupMoELayer :=
  r <- (if String.eqb (router_str cfg) "hash" then Ok HashRouter
        else if String.eqb (router_str cfg) "linear" then Ok (LinearRouter router_weight)
        else Raise AssertionError) ;;
  if valid_k_c cfg
  then Ok (mkGroupMoELayer cfg id r bank)
  else Raise AssertionError.

(** Modelled from the spec: an assignment (section 3) gives every token its
    (expert, weight) pairs. *)
Definition Assignment := list (list (nat * R)).

(** Modelled from the spec: hash routing (section 4.2): the expert of a token
    is [token_id mod num_experts], with weight 1. *)
Definition hash_assignment (n_experts : nat) (ids : list Z) : Assignment :=
  map (fun id => [(Z.to_nat (id mod Z.of_nat n_experts), 1)]) ids.

(** Modelled from the spec: the routing logits of the linear router
    (section 4.1), one score per expert. *)
Definition router_logits (weight : mat) (x : vec) : result vec :=
  if forallb (fun row => Nat.eqb (length row) (length x)) weight
  then Ok (map (fun row => Rsum (vmul row x)) weight)
  else Raise RuntimeError.

Section Forward.

Variable act_fn : R -> R.
Variable dropout : vec -> vec.

(** Modelled from the spec: the assignment policy for learned routing
    logits (token choice when [k] is set, expert choice when [c] is set;
    sections 4.2 and 4.3), any function from the configuration and the logits
    to an assignment. *)
Variable policy : MoEConfig -> mat -> Assignment.

(** Modelled from the spec: the combiner (section 4.5) for one token: the
    sum of the outputs of its experts, each scaled by its weight; a token
    that no expert takes gets the zero vector. *)
Fixpoint combine_token (bank : ExpertList) (hidden : nat) (x : vec)
    (asg : list (nat * R)) : result vec :=
  match asg with
  | [] => Ok (repeat 0 hidden)
  | (e, w) :: rest =>
      match nth_error bank e with
      | None => Raise IndexError
      | Some ex =>
          y <- Expert_forward act_fn dropout ex x ;;
          acc <- combine_token bank hidden x rest ;;
          Ok (vadd (vscale w y) acc)
      end
  end.

(** Modelled from the spec: the forward call of the layer on an input of
    axes (batch, seq, hidden) and the optional token ids of axes
    (batch, seq).  The hash router asserts the ids first; then come routing,
    assignment, the experts and the combiner, which puts every token's
    output back at the token's position. *)
Definition forward (self : GroupMoELayer) (x : tensor3)
    (input_ids : option (list (list Z))) : result (tensor3 * MoELayerCache) :=
  let cfg := config self in
  la <- match router self with
        | HashRouter =>
            match input_ids with
            | None => Raise AssertionError
            | Some ids =>
                let asg := hash_assignment (num_experts cfg) (concat ids) in
                Ok (map (map (fun ew => snd ew)) asg, asg)
            end
        | LinearRouter w =>
            logits <- mapM (router_logits w) (flatten01 x) ;;
            Ok (logits, policy cfg logits)
        end ;;
  let logits := fst la in
  let asg := snd la in
  let batch := length x in
  let seq_len := axis1 x in
  let tokens := flatten01 x in
  if negb (Nat.eqb (length asg) (length tokens)) then Raise RuntimeError else
  outs <- mapM (fun xa => combine_token (experts self) (hidden_size cfg) (fst xa) (snd xa))
               (combine tokens asg) ;;
  let y := map (fun b => map (fun s => nth (b * seq_len + s) outs []) (seq 0 seq_len))
               (seq 0 batch) in
  Ok (y, mkMoELayerCache (map (map (fun ew => snd ew)) asg)
                         (map (map (fun ew => Z.of_nat (fst ew))) asg)
                         logits).

End Forward.

(** The token ids have axes (b, s). *)
Definition ids_shape (b s : nat) (ids : list (list Z)) : Prop :=
  length ids = b /\ Forall (fun row => length row = s) ids.

(** [shape3 b s h x]: [x] has axes (b, s, h). *)
Definition shape3 (b s h : nat) (x : tensor3) : Prop :=
  length x = b /\ Forall (rect s h) x.

(** The parameters of a layer fit its configuration: one expert per
    [num_experts], each mapping [hidden_size] features to [up] and back, and
    a linear router with one row of [hidden_size] weights per expert. *)
Definition params_fit (self : GroupMoELayer) (up : nat) : Prop :=
  let h := hidden_size (config self) in
  length (experts self) = num_experts (config self) /\
  Forall (expert_of_shape up h up h up h) (experts self) /\
  match router self with
  | HashRouter => (0 < num_experts (config self))%nat
  | LinearRouter w => rect (num_experts (config self)) h w
  end.

(** An assignment names only experts of the bank, and has one entry per
    token. *)
Definition policy_fits (policy : MoEConfig -> mat -> Assignment) : Prop :=
  forall (cfg : MoEConfig) (logits : mat),
    length (policy cfg logits) = length logits /\
    Forall (Forall (fun ew => (fst ew < num_experts cfg)%nat)) (policy cfg logits).

End GroupMoE.

(* ================================================================== *)
(** * The losses as the specification words them *)

Module Claimed.

(** A cache built from layer caches only. *)
Definition cache_of_layers (layers : list (string * MoELayerCache)) : MoEFullCache :=
  map (fun kv => (fst kv, PyLayerCache (snd kv))) layers.

(** The raw routing logits of the layers, axes (layer, expert, token) as the
    loss functions name them. *)
Definition logits_of (layers : list (string * MoELayerCache)) : tensor3 :=
  map (fun kv => routing_weights (snd kv)) layers.

(** A non-empty full cache: at least one layer, every entry a layer cache
    whose routing logits have [E] rows and [T] columns, with at least one
    expert and one token, and a positive [num_tokens]. *)
Definition nonempty_full_cache (c : TokenChoiceFullCache)
    (layers : list (string * MoELayerCache)) (E T : nat) : Prop :=
  layers <> [] /\
  entries c = cache_of_layers layers /\
  Forall (rect E T) (logits_of layers) /\
  (0 < E)%nat /\ (0 < T)%nat /\ (0 < num_tokens c)%nat.

(** Per-token softmax over the expert axis of one layer's logits; the
    result keeps the axes (expert, token). *)
Definition per_token_probs (layer : mat) : mat :=
  transpose (map softmax (transpose layer)).

(** num_experts * sum_{layer, e} (fraction of tokens assigned to e) *
    (fraction of router probability mass on e). *)
Definition load_balancing (n_experts n_tokens : nat) (p : tensor4) (rw : tensor3) : R :=
  INR n_experts *
  Rsum (map (fun lp =>
          Rsum (map (fun ep =>
                  (Rsum (map Rsum (fst ep)) / INR n_tokens) *
                  (Rsum (snd ep) / INR n_tokens))
               (combine (fst lp) (per_token_probs (snd lp)))))
       (combine p rw)).

(** Mean over layers and experts of logsumexp(row)^2. *)
Definition router_z (rw : tensor3) : R :=
  mean (map (fun row => (logsumexp row) ^ 2) (flatten01 rw)).

(** Entropy of a distribution. *)
Definition entropy (q : vec) : R := - Rsum (map xlogx q).

(** The logits of token [t] over all (layer, expert) pairs. *)
Definition token_logits (rw : tensor3) (t : nat) : vec := column t (flatten01 rw).

(** Negative mean, over the [n_tokens] tokens, of the entropy of each
    token's softmax distribution over the (layer, expert) pairs. *)
Definition negative_mean_entropy (n_tokens : nat) (rw : tensor3) : R :=
  - mean (map (fun t => entropy (softmax (token_logits rw t))) (seq 0 n_tokens)).

End Claimed.
Import Claimed.

(* ================================================================== *)
(** * Concrete inputs *)

Module Examples.

Definition layer_cache_of (rw : mat) : MoELayerCache :=
  mkMoELayerCache [] [] rw.

(** Two layers, two experts, two tokens, all logits 0; in both layers both
    tokens are assigned to expert 0. *)
Definition z_layers : list (string * MoELayerCache) :=
  [("layer1"%string, layer_cache_of [[0; 0]; [0; 0]]);
   ("layer2"%string, layer_cache_of [[0; 0]; [0; 0]])].

Definition z_cache : TokenChoiceFullCache :=
  mkTokenChoiceFullCache (cache_of_layers z_layers) 2 2
    [[[[1]; [1]]; [[0]; [0]]]; [[[1]; [1]]; [[0]; [0]]]].

(** One layer, two experts, two tokens, all logits 0; both tokens are
    assigned to expert 0. *)
Definition u_layers : list (string * MoELayerCache) :=
  [("layer1"%string, layer_cache_of [[0; 0]; [0; 0]])].

Definition u_cache : TokenChoiceFullCache :=
  mkTokenChoiceFullCache (cache_of_layers u_layers) 2 2 [[[[1]; [1]]; [[0]; [0]]]].

(** One layer, two experts, two tokens; expert 0 scores token 0 with ln 3,
    every other logit is 0 (so the logits read the same with the expert and
    token axes exchanged); both tokens are assigned to expert 0. *)
Definition lb_layers : list (string * MoELayerCache) :=
  [("layer1"%string, layer_cache_of [[ln 3; 0]; [0; 0]])].

Definition lb_P : tensor4 := [[[[1]; [1]]; [[0]; [0]]]].

Definition lb_cache : TokenChoiceFullCache :=
  mkTokenChoiceFullCache (cache_of_layers lb_layers) 2 2 lb_P.



(** An expert with up-projection 2 -> 1 and down-projection 1 -> 2. *)
Definition m_expert : Expert := mkExpert [[1; 2]] [3] [[4]; [5]] [6; 7].

(** A second expert of the same shapes. *)
Definition m_expert' : Expert := mkExpert [[10; 20]] [30] [[40]; [50]] [60; 70].

(** [GroupMoELayer(num_experts=2, router_str="hash", layer_id="layer1",
    group_size=2, c=1.0)] on a hidden size of 2, with the two experts
    above. *)
Definition hash_cfg : GroupMoE.MoEConfig :=
  GroupMoE.mkMoEConfig 2 0 1 2 "hash" 2.

Definition hash_layer : GroupMoE.GroupMoELayer :=
  GroupMoE.mkGroupMoELayer hash_cfg "layer1" GroupMoE.HashRouter [m_expert; m_expert'].

(** The same configuration with [c=0]. *)
Definition k_0_c_0_cfg : GroupMoE.MoEConfig :=
  GroupMoE.mkMoEConfig 2 0 0 2 "hash" 2.

(** ReLU, no dropout, and a policy that drops every token. *)
Definition relu (x : R) : R := Rmax 0 x.
Definition no_dropout (v : vec) : vec := v.
Definition drop_all (cfg : GroupMoE.MoEConfig) (logits : mat) : GroupMoE.Assignment :=
  map (fun _ => []) logits.

(** An input of axes (batch=1, seq=2, hidden=2) and its token ids. *)
Definition x_1_2_2 : tensor3 := [[[1; 2]; [3; 4]]].
Definition ids_1_2 : list (list Z) := [[5%Z; 8%Z]].

End Examples.
Import Examples.

(* ================================================================== *)
(** * [mixture_of_experts/cache.py]: the other stacked properties *)

Module FullCache.

(** Two integer tensors of two axes have the same shape. *)
Definition same_shape2Z (a b : list (list Z)) : bool :=
  if list_eq_dec Nat.eq_dec (map (@length Z) a) (map (@length Z) b) then true else false.

(** Attribute access [cache.G] and [cache.token_assignments]. *)
Definition get_G (v : pyobj) : result mat :=
  match v with
  | PyLayerCache c => Ok (Cache.G c)
  | _ => Raise AttributeError
  end.

Definition get_token_assignments (v : pyobj) : result (list (list Z)) :=
  match v with
  | PyLayerCache c => Ok (Cache.token_assignments c)
  | _ => Raise AttributeError
  end.

(** The property [MoEFullCache.G]. *)
Definition G (self : MoEFullCache) : result tensor3 :=
  ts <- mapM get_G (values self) ;;
  stack same_shape2 ts.

(** The property [MoEFullCache.token_assignments]. *)
Definition token_assignments (self : MoEFullCache) : result (list (list (list Z))) :=
  ts <- mapM get_token_assignments (values self) ;;
  stack same_shape2Z ts.

(** Some entry of the mapping is not a [MoELayerCache]. *)
Definition some_other_entry (self : MoEFullCache) : Prop :=
  Exists (fun kv => isinstance_MoELayerCache (snd kv) = false) self.

(** The layer axis of a stacked tensor follows [layer_indices]: it has one
    slice per key, and slice [i] is the field [f] of the layer cache stored
    under the [i]-th key. *)
Definition follows_layer_indices {A : Type} (self : MoEFullCache)
    (f : MoELayerCache -> A) (d : A) (ts : list A) : Prop :=
  length ts = length (layer_indices self) /\
  forall i : nat, (i < length ts)%nat ->
    exists lc : MoELayerCache,
      dict_get self (nth i (layer_indices self) ""%string) = Some (PyLayerCache lc) /\
      nth i ts d = f lc.

End FullCache.

(* ================================================================== *)
(** * Concrete inputs for the cache *)

Module CacheExamples.

Definition lc_a : MoELayerCache := mkMoELayerCache [[1]] [[0%Z]] [[1; 2]; [3; 4]].
Definition lc_b : MoELayerCache := mkMoELayerCache [[1]] [[1%Z]] [[5; 6]; [7; 8]].

(** A cache with the layers "a" and "b". *)
Definition ab_cache : MoEFullCache :=
  [("a"%string, PyLayerCache lc_a); ("b"%string, PyLayerCache lc_b)].

End CacheExamples.

(* ================================================================== *)
(** * Shifted routing logits *)

Module Shift.

(** The same layer cache with [k] added to every routing logit. *)
Definition shift_layer (k : R) (lc : MoELayerCache) : MoELayerCache :=
  mkMoELayerCache (Cache.G lc) (Cache.token_assignments lc)
                  (map (map (Rplus k)) (routing_weights lc)).

Definition shift_layers (k : R) (layers : list (string * MoELayerCache))
  : list (string * MoELayerCache) :=
  map (fun kv => (fst kv, shift_layer k (snd kv))) layers.

(** [u_cache] with 5 added to every logit. *)
Definition u_cache_shifted : TokenChoiceFullCache :=
  mkTokenChoiceFullCache (cache_of_layers (shift_layers 5 u_layers)) 2 2
    [[[[1]; [1]]; [[0]; [0]]]].

End Shift.

(* ================================================================== *)
(** * [mixture_of_experts/experts.py]: the expert built from merged weights *)

Module FromWeights.

Section Forward.

(** The activation [act_fn], applied entrywise, and the action of
    [F.dropout(x, p = self.dropout)] on a vector. *)
Variable act_fn : R -> R.
Variable dropout : vec -> vec.


End Forward.

End FromWeights.

(* ================================================================== *)
(** * [switch_transformer/train.py]: the dataset *)

Module Train.

Inductive error : Set :=
| ZeroDivisionError.

Inductive outcome (A : Type) : Type :=
| Returns (a : A)
| Raises (e : error).
Arguments Returns {A} a.
Arguments Raises {A} e.

(** An index of a slice on a sequence of length [n]: a negative index counts
    from the end, and the result is clamped to [0, n]. *)
Definition slice_index (n i : Z) : Z :=
  if (i <? 0)%Z then Z.max 0 (i + n) else Z.min i n.

(** The slice [l[start:stop]] of a one-dimensional tensor. *)
Definition slice {A : Type} (l : list A) (start stop : Z) : list A :=
  let n := Z.of_nat (length l) in
  let s := slice_index n start in
  let e := slice_index n stop in
  firstn (Z.to_nat (e - s)) (skipn (Z.to_nat s) l).

(** [class ShakespeareDataset]. *)
Record ShakespeareDataset : Type := mkShakespeareDataset {
  data : list Z;
  block_size : Z
}.

(** [ShakespeareDataset.__len__]: [self.data.shape[0] // self.block_size]. *)
Definition __len__ (self : ShakespeareDataset) : outcome Z :=
  if (block_size self =? 0)%Z then Raises ZeroDivisionError
  else Returns (Z.of_nat (length (data self)) / block_size self)%Z.

(** [ShakespeareDataset.__getitem__]:
    [self.data[idx * self.block_size : (idx + 1) * self.block_size]]. *)
Definition __getitem__ (self : ShakespeareDataset) (idx : Z) : list Z :=
  slice (data self) (idx * block_size self) ((idx + 1) * block_size self).

(** The items [0 .. k-1], in order. *)
Definition items (self : ShakespeareDataset) (k : nat) : list (list Z) :=
  map (fun i => __getitem__ self (Z.of_nat i)) (seq 0 k).

(** Seven tokens in blocks of three. *)
Definition seven : ShakespeareDataset :=
  mkShakespeareDataset [10; 11; 12; 13; 14; 15; 16]%Z 3.

End Train.

(* ================================================================== *)
(** * [general/norms.py]: BatchNorm2d *)

Module Norms.

(** A tensor of four axes (batch, channels, height, width): its shape and
    its entries by index. *)
Record tensor4d : Type := mkTensor4d {
  batch : nat;
  chans : nat;
  height : nat;
  width : nat;
  at4 : nat -> nat -> nat -> nat -> R
}.

(** Sum over the axes (0, 2, 3), for one channel. *)
Definition sum3 (b h w : nat) (f : nat -> nat -> nat -> R) : R :=
  Rsum (map (fun i =>
    Rsum (map (fun j =>
      Rsum (map (fun l => f i j l) (seq 0 w))) (seq 0 h))) (seq 0 b)).

(** Number of entries of one channel. *)
Definition per_channel (x : tensor4d) : nat := (batch x * height x * width x)%nat.

(** [t.mean(x, dim=(0, 2, 3))] at channel [c]. *)
Definition channel_mean (x : tensor4d) (c : nat) : R :=
  sum3 (batch x) (height x) (width x) (fun i j l => at4 x i c j l) / INR (per_channel x).

(** [t.var(x, dim=(0, 2, 3), unbiased=False)] at channel [c]. *)
Definition channel_var (x : tensor4d) (c : nat) : R :=
  let mu := channel_mean x c in
  sum3 (batch x) (height x) (width x)
       (fun i j l => (at4 x i c j l - mu) * (at4 x i c j l - mu))
  / INR (per_channel x).

(** [class BatchNorm2d]: its attributes, parameters and buffers, and the
    [training] flag of [nn.Module]. *)
Record BatchNorm2d : Type := mkBatchNorm2d {
  eps : R;
  num_features : nat;
  momentum : R;
  weight : vec;
  bias : vec;
  running_mean : vec;
  running_var : vec;
  num_batches_tracked : Z;
  training : bool
}.

(** [BatchNorm2d.__init__]; a new module is in training mode. *)
Definition __init__ (num_features : nat) (eps momentum : R) : BatchNorm2d :=
  mkBatchNorm2d eps num_features momentum
    (repeat 1 num_features) (repeat 0 num_features)
    (repeat 0 num_features) (repeat 1 num_features)
    0%Z true.

(** [nn.Module.eval()]. *)
Definition eval (self : BatchNorm2d) : BatchNorm2d :=
  mkBatchNorm2d (eps self) (num_features self) (momentum self)
    (weight self) (bias self) (running_mean self) (running_var self)
    (num_batches_tracked self) false.

(** [(1 - momentum) * running + momentum * stat], entry by entry. *)
Definition update_running (momentum : R) (running stat : vec) : vec :=
  vadd (vscale (1 - momentum) running) (vscale momentum stat).

(** [BatchNorm2d.forward]: the output and the module after the call. *)
Definition forward (self : BatchNorm2d) (x : tensor4d) : result (tensor4d * BatchNorm2d) :=
  if negb (Nat.eqb (chans x) (num_features self)) then Raise AssertionError else
  let batch_mean := tab1 (chans x) (channel_mean x) in
  let batch_var := tab1 (chans x) (channel_var x) in
  let mean := if training self then batch_mean else running_mean self in
  let var := if training self then batch_var else running_var self in
  let self' :=
    if training self
    then mkBatchNorm2d (eps self) (num_features self) (momentum self)
           (weight self) (bias self)
           (update_running (momentum self) (running_mean self) batch_mean)
           (update_running (momentum self) (running_var self) batch_var)
           (num_batches_tracked self) (training self)
    else self in
  let x_norm := fun i c j l =>
    (at4 x i c j l - at1 mean c) / (sqrt (at1 var c) + eps self)
    * at1 (weight self) c + at1 (bias self) c in
  Ok (mkTensor4d (batch x) (chans x) (height x) (width x) x_norm, self').

(** The input [[[[1, 3]], [[5, 7]]]] of shape (1, 2, 1, 2), and a module
    for two channels with weights (2, 3) and biases (10, 20). *)
Definition x_1_2_1_2 : tensor4d :=
  mkTensor4d 1 2 1 2 (fun _ c _ l => INR (4 * c + 2 * l + 1)).

Definition bn2 : BatchNorm2d :=
  mkBatchNorm2d (/ 100000) 2 (/ 10) [2; 3] [10; 20] [0; 0] [1; 1] 0%Z true.

End Norms.

(* ================================================================== *)
(** * [alibi/attention.py]: construction and the ALiBi mask *)

Module Alibi.

Inductive error : Set :=
| ZeroDivisionError
| AssertionError
| ValueError.

Inductive outcome (A : Type) : Type :=
| Returns (a : A)
| Raises (e : error).
Arguments Returns {A} a.
Arguments Raises {A} e.

(** The entries of a float tensor that may hold infinities: a real number,
    an infinity, or not-a-number. *)
Inductive fval : Type :=
| Fin (r : R)
| PosInf
| NegInf
| NaN.

(** The value [p], [n] or not-a-number by the sign of [a]. *)
Definition by_sign (a : R) (p n : fval) : fval :=
  if Rlt_dec 0 a then p else if Rlt_dec a 0 then n else NaN.

Definition fmul (x y : fval) : fval :=
  match x, y with
  | NaN, _ | _, NaN => NaN
  | Fin a, Fin b => Fin (a * b)
  | Fin a, PosInf | PosInf, Fin a => by_sign a PosInf NegInf
  | Fin a, NegInf | NegInf, Fin a => by_sign a NegInf PosInf
  | PosInf, PosInf | NegInf, NegInf => PosInf
  | PosInf, NegInf | NegInf, PosInf => NegInf
  end.

Definition fadd (x y : fval) : fval :=
  match x, y with
  | NaN, _ | _, NaN => NaN
  | Fin a, Fin b => Fin (a + b)
  | Fin _, PosInf | PosInf, Fin _ | PosInf, PosInf => PosInf
  | Fin _, NegInf | NegInf, Fin _ | NegInf, NegInf => NegInf
  | PosInf, NegInf | NegInf, PosInf => NaN
  end.

(** [class AlibiUnidirectionalAttention]: the attributes that [__init__]
    computes (the two linear layers hold random weights). *)
Record AlibiUnidirectionalAttention : Type := mkAlibi {
  hidden_size : nat;
  num_heads : nat;
  head_size : nat;
  attn_scale : R;
  dropout : R;
  m_list : list R
}.

(** [self.m_list]: [1 / (2**i)] for at most 8 heads, [1 / (2 ** (i / 2))]
    for more. *)
Definition m_list_of (num_heads : nat) : list R :=
  if (num_heads <=? 8)%nat
  then map (fun i => 1 / 2 ^ i) (seq 0 num_heads)
  else map (fun i => 1 / Rpower 2 (INR i / 2)) (seq 0 num_heads).

(** [AlibiUnidirectionalAttention.__init__], on sizes that are not
    negative: [hidden_size % num_heads] divides by zero for no head, the
    assertion fails when the heads do not divide the hidden size,
    [1.0 / math.sqrt(self.head_size)] divides by zero for a head size of 0,
    and [nn.Dropout] rejects a probability outside [0, 1]. *)
Definition __init__ (hidden_size num_heads : nat) (head_size : option nat) (dropout : R)
  : outcome AlibiUnidirectionalAttention :=
  if Nat.eqb num_heads 0 then Raises ZeroDivisionError else
  if negb (Nat.eqb (hidden_size mod num_heads) 0) then Raises AssertionError else
  let head := match head_size with
              | None => (hidden_size / num_heads)%nat
              | Some h => h
              end in
  if Nat.eqb head 0 then Raises ZeroDivisionError else
  if Rlt_dec dropout 0 then Raises ValueError else
  if Rlt_dec 1 dropout then Raises ValueError else
  Returns (mkAlibi hidden_size num_heads head (1 / sqrt (INR head)) dropout
                   (m_list_of num_heads)).

(** [t.ones(n, n)]. *)
Definition ones (n : nat) : mat := repeat (repeat 1 n) n.

(** [t.triu(m, diagonal=1)]: the entries strictly above the diagonal, and
    zero elsewhere. *)
Definition triu1 {A : Type} (zero : A) (m : list (list A)) : list (list A) :=
  map (fun i =>
         map (fun j => if (i <? j)%nat then nth j (nth i m []) zero else zero)
             (seq 0 (length (nth i m []))))
      (seq 0 (length m)).

(** [t.cumsum(v, dim)] along one axis. *)
Fixpoint cumsum_from (acc : R) (v : vec) : vec :=
  match v with
  | [] => []
  | x :: v' => (acc + x) :: cumsum_from (acc + x) v'
  end.

Definition cumsum (v : vec) : vec := cumsum_from 0 v.

(** [regular_mask]: minus infinity strictly above the diagonal. *)
Definition regular_mask (seq_length : nat) : list (list fval) :=
  let ones := ones seq_length in
  let infs := map (map (fun v => fmul (Fin v) NegInf)) ones in
  triu1 (Fin 0) infs.

(** Entrywise sum of a real matrix and a float matrix of the same shape. *)
Definition add_mask (m : mat) (r : list (list fval)) : list (list fval) :=
  map (fun p => map (fun q => fadd (Fin (fst q)) (snd q)) (combine (fst p) (snd p)))
      (combine m r).

(** [get_alibi_mask]: axes (1, num_heads, seq, seq). *)
Definition get_alibi_mask (self : AlibiUnidirectionalAttention) (seq_length : nat)
  : list (list (list (list fval))) :=
  let ones := ones seq_length in
  let mask := triu1 0 ones in
  let mask := map (fun row => map Ropp (cumsum row)) mask in
  let mask := transpose mask in
  let mask := add_mask mask (regular_mask seq_length) in
  let mask_list :=
    map (fun i => map (map (fun v => fmul v (Fin (nth i (m_list self) 0)))) mask)
        (seq 0 (num_heads self)) in
  [mask_list].

(** Entry [mask[b][h][i][j]]. *)
Definition at4 (m : list (list (list (list fval)))) (b h i j : nat) : fval :=
  nth j (nth i (nth h (nth b m []) []) []) NaN.

End Alibi.

(* ================================================================== *)
(** * Sums, softmax and shapes *)

Section SumFacts.

Lemma Rsum_app (u v : vec) : Rsum (u ++ v) = Rsum u + Rsum v.
Proof.
  induction u as [|x u IH]; simpl.
  - lra.
  - rewrite IH. lra.
Qed.

Lemma Rsum_concat (x : mat) : Rsum (concat x) = Rsum (map Rsum x).
Proof.
  induction x as [|r x IH]; simpl.
  - reflexivity.
  - rewrite Rsum_app, IH. reflexivity.
Qed.

Lemma Rsum_map_concat {A : Type} (f : A -> R) (x : list (list A)) :
  Rsum (map f (concat x)) = Rsum (map (fun r => Rsum (map f r)) x).
Proof.
  induction x as [|r x IH]; simpl.
  - reflexivity.
  - rewrite map_app, Rsum_app, IH. reflexivity.
Qed.

Lemma Rsum_map_nonneg {A : Type} (f : A -> R) (l : list A) :
  (forall a, In a l -> 0 <= f a) -> 0 <= Rsum (map f l).
Proof.
  induction l as [|a l IH]; simpl; intros H.
  - lra.
  - assert (0 <= f a) by (apply H; now left).
    assert (0 <= Rsum (map f l)) by (apply IH; intros; apply H; now right).
    lra.
Qed.


Lemma Rsum_map_scale {A : Type} (f : A -> R) (k : R) (l : list A) :
  Rsum (map (fun a => f a / k) l) = Rsum (map f l) / k.
Proof.
  induction l as [|a l IH]; simpl.
  - unfold Rdiv. lra.
  - rewrite IH. unfold Rdiv. lra.
Qed.

Lemma Rsum_exp_pos (v : vec) : v <> [] -> 0 < Rsum (map exp v).
Proof.
  destruct v as [|x v]; [congruence|]. intros _. simpl.
  assert (0 <= Rsum (map exp v)).
  { apply Rsum_map_nonneg. intros a _. left. apply exp_pos. }
  pose proof (exp_pos x). lra.
Qed.

Lemma softmax_sum (v : vec) : v <> [] -> Rsum (softmax v) = 1.
Proof.
  intros Hv. unfold softmax.
  rewrite (Rsum_map_scale exp).
  pose proof (Rsum_exp_pos v Hv). field. lra.
Qed.






End SumFacts.

Section CacheFacts.

Lemma mapM_get_routing_weights (layers : list (string * MoELayerCache)) :
  mapM get_routing_weights (values (cache_of_layers layers)) = Ok (logits_of layers).
Proof.
  unfold values, cache_of_layers, logits_of.
  induction layers as [|[k lc] layers IH]; simpl.
  - reflexivity.
  - rewrite IH. reflexivity.
Qed.

Lemma rect_row_lengths (E T : nat) (m : mat) :
  rect E T m -> row_lengths m = repeat T E.
Proof.
  intros [Hl Hr]. subst E. induction Hr as [|r m Hr _ IH]; simpl.
  - reflexivity.
  - rewrite Hr. f_equal. exact IH.
Qed.

Lemma same_shape2_rect (E T : nat) (a b : mat) :
  rect E T a -> rect E T b -> same_shape2 a b = true.
Proof.
  intros Ha Hb. unfold same_shape2.
  rewrite (rect_row_lengths E T a Ha), (rect_row_lengths E T b Hb).
  destruct (list_eq_dec Nat.eq_dec (repeat T E) (repeat T E)); congruence.
Qed.

Lemma stack_rect (E T : nat) (ts : tensor3) :
  ts <> [] -> Forall (rect E T) ts -> stack same_shape2 ts = Ok ts.
Proof.
  destruct ts as [|t0 ts]; [congruence|]. intros _ H.
  inversion H as [|? ? H0 Hrest]; subst. simpl.
  replace (forallb (same_shape2 t0) ts) with true; [reflexivity|].
  symmetry. apply forallb_forall. intros t Ht.
  apply (same_shape2_rect E T); [assumption|].
  rewrite Forall_forall in Hrest. apply Hrest, Ht.
Qed.

(** On a non-empty full cache the stacked logits exist. *)
Lemma routing_weights_tensor_ok (c : TokenChoiceFullCache)
    (layers : list (string * MoELayerCache)) (E T : nat) :
  nonempty_full_cache c layers E T ->
  routing_weights_tensor (entries c) = Ok (logits_of layers).
Proof.
  intros (Hne & He & Hr & _). unfold routing_weights_tensor.
  rewrite He, mapM_get_routing_weights. simpl.
  apply (stack_rect E T); [|assumption].
  destruct layers; [congruence|discriminate].
Qed.

Lemma ln_2_pos : 0 < ln 2.
Proof. rewrite <- ln_1. apply ln_increasing; lra. Qed.

Lemma z_cache_nonempty : nonempty_full_cache z_cache z_layers 2 2.
Proof.
  repeat split; try discriminate; try (simpl; lia).
  repeat constructor.
Qed.

Lemma u_cache_nonempty : nonempty_full_cache u_cache u_layers 2 2.
Proof.
  repeat split; try discriminate; try (simpl; lia).
  repeat constructor.
Qed.

Lemma xlogx_0 : xlogx 0 = 0.
Proof. unfold xlogx. lra. Qed.

Lemma xlogx_half : xlogx (/ 2) = - (ln 2 / 2).
Proof. unfold xlogx. rewrite ln_Rinv by lra. lra. Qed.

Lemma nth_map_xlogx (row : vec) (t : nat) :
  nth t (map xlogx row) 0 = xlogx (nth t row 0).
Proof. rewrite <- xlogx_0 at 1. apply map_nth. Qed.

Lemma rect_ncols (E T : nat) (m : mat) : (0 < E)%nat -> rect E T m -> ncols m = T.
Proof.
  intros HE [Hl Hr]. destruct m as [|r m]; simpl in *; [lia|].
  now inversion Hr.
Qed.

(** Flattening axes 0 and 1 of stacked [E] x [T] layers gives rows of
    length [T]. *)
Lemma flat_rows (E T : nat) (f : vec -> vec) (rw : tensor3) :
  (forall v, length (f v) = length v) ->
  Forall (rect E T) rw ->
  Forall (fun row => length row = T) (flatten01 (map (map f) rw)).
Proof.
  intros Hf H. unfold flatten01. induction H as [|l rw [_ Hl] _ IH]; simpl.
  - constructor.
  - apply Forall_app. split; [|exact IH].
    apply Forall_map. eapply Forall_impl; [|exact Hl].
    intros r Hr. simpl. now rewrite Hf.
Qed.

Lemma flat_length (E T : nat) (f : vec -> vec) (rw : tensor3) :
  Forall (rect E T) rw ->
  length (flatten01 (map (map f) rw)) = (length rw * E)%nat.
Proof.
  intros H. unfold flatten01. induction H as [|l rw [Hl _] _ IH]; simpl.
  - reflexivity.
  - rewrite length_app, length_map, IH, Hl. reflexivity.
Qed.

Lemma softmax_length (v : vec) : length (softmax v) = length v.
Proof. unfold softmax. apply length_map. Qed.

Lemma ncols_rows (T : nat) (m : mat) :
  m <> [] -> Forall (fun row => length row = T) m -> ncols m = T.
Proof.
  destruct m as [|r m]; [congruence|]. intros _ H. now inversion H.
Qed.

End CacheFacts.

(* ================================================================== *)
(** * Router z loss *)

(** C2, as the code has it: on every non-empty full cache,
    [router_z_loss_function] returns the sum over layers and experts of
    logsumexp(row)^2, where each row holds the logits of one (layer, expert)
    pair, divided by [num_tokens]. *)
Theorem router_z_loss_function_sum_over_num_tokens
    (c : TokenChoiceFullCache) (layers : list (string * MoELayerCache)) (E T : nat) :
  nonempty_full_cache c layers E T ->
  router_z_loss_function c =
  Ok (Rsum (map (fun row => (ln (Rsum (map exp row))) ^ 2) (flatten01 (logits_of layers)))
      / INR (num_tokens c)).
Proof.
  intros Hc. unfold router_z_loss_function.
  rewrite (routing_weights_tensor_ok c layers E T Hc). simpl bind.
  do 2 f_equal. unfold einsum_total, flatten01.
  rewrite Rsum_map_concat, !map_map. f_equal.
  apply map_ext. intros l. rewrite !map_map. reflexivity.
Qed.

Lemma router_z_loss_function_sum_over_num_tokens_witness :
  router_z_loss_function z_cache =
  Ok (Rsum (map (fun row => (ln (Rsum (map exp row))) ^ 2) (flatten01 (logits_of z_layers)))
      / INR (num_tokens z_cache)).
Proof.
  apply (router_z_loss_function_sum_over_num_tokens z_cache z_layers 2 2).
  exact z_cache_nonempty.
Defined.

(** C2, as stated, fails: on two layers, two experts and two tokens with all
    logits 0 the code returns 4 (ln 2)^2 / 2, the mean over the four
    (layer, expert) pairs is (ln 2)^2. *)
Lemma router_z_loss_function_is_not_the_mean :
  router_z_loss_function z_cache = Ok (2 * ln 2 ^ 2) /\
  router_z (logits_of z_layers) = ln 2 ^ 2 /\
  2 * ln 2 ^ 2 <> ln 2 ^ 2.
Proof.
  split; [|split].
  - unfold router_z_loss_function.
    rewrite (routing_weights_tensor_ok z_cache z_layers 2 2 z_cache_nonempty).
    unfold logsumexp, einsum_total. simpl. rewrite exp_0.
    replace (1 + (1 + 0)) with 2 by lra.
    f_equal. lra.
  - unfold router_z, mean, logsumexp. simpl. rewrite exp_0.
    replace (1 + (1 + 0)) with 2 by lra. lra.
  - pose proof ln_2_pos. nra.
Qed.

(* ================================================================== *)
(** * Local entropy loss *)

(** C5, as the code has it: on every non-empty full cache
    [local_entropy_loss] returns the mean over tokens of
    - sum p * ln p over the (layer, expert) pairs, with [p] the routing
    probabilities the code computes: the entropy term itself, not its
    negative. *)
Theorem local_entropy_loss_mean_entropy
    (c : TokenChoiceFullCache) (layers : list (string * MoELayerCache)) (E T : nat) :
  nonempty_full_cache c layers E T ->
  local_entropy_loss c =
  Ok (mean (map (fun t =>
               - Rsum (map (fun probs => xlogx (nth t probs 0))
                           (flat_routing_probs (logits_of layers))))
            (seq 0 T))).
Proof.
  intros Hc. unfold local_entropy_loss.
  rewrite (routing_weights_tensor_ok c layers E T Hc). simpl bind.
  do 2 f_equal. unfold local_entropy, sum_dim0, transpose.
  destruct Hc as (Hne & _ & Hr & HE & _).
  set (flat := flat_routing_probs (logits_of layers)).
  assert (Hrows : Forall (fun row => length row = T) flat).
  { apply (flat_rows E T); [apply softmax_length|assumption]. }
  assert (Hflat : flat <> []).
  { intros Hnil. apply (f_equal (@length _)) in Hnil.
    unfold flat, flat_routing_probs, routing_probs in Hnil.
    rewrite (flat_length E T) in Hnil by assumption.
    unfold logits_of in Hnil. rewrite length_map in Hnil.
    destruct layers; [congruence|]. simpl in Hnil. lia. }
  assert (Hc : ncols (map (map xlogx) flat) = T).
  { apply ncols_rows.
    - destruct flat; [congruence|discriminate].
    - apply Forall_map. eapply Forall_impl; [|exact Hrows].
      intros r Hlen. simpl. now rewrite length_map. }
  rewrite Hc, !map_map. apply map_ext. intros t. f_equal. f_equal.
  unfold column. rewrite map_map. apply map_ext. intros row.
  apply nth_map_xlogx.
Qed.

Lemma local_entropy_loss_mean_entropy_witness :
  local_entropy_loss u_cache =
  Ok (mean (map (fun t =>
               - Rsum (map (fun probs => xlogx (nth t probs 0))
                           (flat_routing_probs (logits_of u_layers))))
            (seq 0 2))).
Proof.
  apply (local_entropy_loss_mean_entropy u_cache u_layers 2 2).
  exact u_cache_nonempty.
Defined.

Lemma softmax_00 : softmax [0; 0] = [/ 2; / 2].
Proof.
  unfold softmax. simpl. rewrite exp_0.
  replace (1 / (1 + (1 + 0))) with (/ 2) by lra. reflexivity.
Qed.

(** C5, as stated, fails: with uniform routing of two tokens over two experts
    the code returns ln 2, the negative mean entropy is - ln 2. *)
Lemma local_entropy_loss_is_not_negated :
  local_entropy_loss u_cache = Ok (ln 2) /\
  negative_mean_entropy 2 (logits_of u_layers) = - ln 2 /\
  ln 2 <> - ln 2.
Proof.
  split; [|split].
  - unfold local_entropy_loss.
    rewrite (routing_weights_tensor_ok u_cache u_layers 2 2 u_cache_nonempty).
    simpl bind. f_equal.
    unfold local_entropy, sum_dim0, transpose, column, flat_routing_probs,
      HfModel.routing_probs, mean.
    cbn [u_layers logits_of map snd routing_weights layer_cache_of flatten01
         concat app].
    rewrite softmax_00.
    cbn [map ncols seq nth Rsum fold_right length INR].
    rewrite xlogx_half. simpl. lra.
  - unfold negative_mean_entropy, token_logits, entropy, mean, column.
    cbn [u_layers logits_of map snd routing_weights layer_cache_of flatten01
         concat app seq nth Rsum fold_right length INR].
    rewrite softmax_00. cbn [map Rsum fold_right]. rewrite xlogx_half. lra.
  - pose proof ln_2_pos. lra.
Qed.

(* ================================================================== *)
(** * Sign of the entropy losses *)

Section EntropySign.





End EntropySign.



(* ================================================================== *)
(** * Expert importance loss *)

Section Importance.

Lemma Rsum_repeat (x : R) (n : nat) : Rsum (repeat x n) = INR n * x.
Proof.
  induction n as [|n IH].
  - simpl. lra.
  - rewrite S_INR. simpl. rewrite IH. lra.
Qed.

Lemma flat_expert_importance_ones (E T : nat) (rw : tensor3) :
  (0 < T)%nat -> Forall (rect E T) rw ->
  flat_expert_importance rw = repeat 1 (length rw * E).
Proof.
  intros HT H. unfold flat_expert_importance, flatten01, reduce_sum_last, routing_probs.
  induction H as [|l rw [Hl Hrows] _ IH]; simpl.
  - reflexivity.
  - rewrite IH, repeat_app. f_equal.
    subst E. clear IH. induction Hrows as [|r l Hr _ IHl]; simpl.
    + reflexivity.
    + rewrite softmax_sum, IHl; [reflexivity|].
      intros ->. simpl in Hr. lia.
Qed.

(** With at least one layer, expert and token the divisor is 1, whatever
    the logits are. *)
Lemma mean_expert_importance_with_tokens
    (c : TokenChoiceFullCache) (layers : list (string * MoELayerCache)) (E T : nat) :
  nonempty_full_cache c layers E T ->
  mean_expert_importance (logits_of layers) = 1.
Proof.
  intros (Hne & _ & Hr & HE & HT & _). unfold mean_expert_importance, mean.
  rewrite (flat_expert_importance_ones E T) by assumption.
  rewrite Rsum_repeat, repeat_length.
  assert (0 < INR (length (logits_of layers) * E)).
  { apply lt_0_INR. unfold logits_of. rewrite length_map.
    destruct layers; [congruence|]. simpl. lia. }
  field. lra.
Qed.

End Importance.


(* ================================================================== *)
(** * Load balancing loss *)

Lemma softmax_ln3_0 : softmax [ln 3; 0] = [3 / 4; / 4].
Proof.
  unfold softmax. simpl. rewrite exp_0, exp_ln by lra.
  f_equal; [|f_equal]; lra.
Qed.

Lemma lb_cache_nonempty : nonempty_full_cache lb_cache lb_layers 2 2.
Proof.
  repeat split; try discriminate; try (simpl; lia).
  repeat constructor.
Qed.

(** C1 at a concrete cache: the code returns 1, the load balancing loss with
    the per-token softmax over the expert axis is 5/4. *)
Theorem load_balancing_aux_loss_function_softmax_axis :
  load_balancing_aux_loss_function lb_cache = Ok 1 /\
  load_balancing (num_experts lb_cache) (num_tokens lb_cache) (P lb_cache)
                 (logits_of lb_layers) = 5 / 4.
Proof.
  split.
  - unfold load_balancing_aux_loss_function.
    rewrite (routing_weights_tensor_ok lb_cache lb_layers 2 2 lb_cache_nonempty).
    simpl bind. rewrite exp_0, exp_ln by lra. f_equal. field.
  - unfold load_balancing, per_token_probs, transpose, column.
    cbn [lb_layers logits_of map fst snd routing_weights layer_cache_of ncols length
         seq nth combine P lb_cache lb_P].
    rewrite softmax_ln3_0, softmax_00.
    simpl. lra.
Qed.

(* ================================================================== *)
(** * The entries of [MoEFullCache] *)

Section CacheInvariant.

Lemma dict_get_setitem {V : Type} (d : dict V) (k : string) (v : V) :
  dict_get (dict_setitem d k v) k = Some v.
Proof.
  induction d as [|[k' v'] d IH]; simpl.
  - now rewrite String.eqb_refl.
  - destruct (String.eqb k' k) eqn:Hk; simpl; rewrite Hk; [reflexivity|exact IH].
Qed.

Lemma dict_setitem_all_layer_caches (d : MoEFullCache) (k : string) (v : pyobj) :
  all_layer_caches d -> isinstance_MoELayerCache v = true ->
  all_layer_caches (dict_setitem d k v).
Proof.
  unfold all_layer_caches. intros Hd Hv.
  induction Hd as [|[k' v'] d Hkv Hd IH]; simpl.
  - repeat constructor. exact Hv.
  - destruct (String.eqb k' k); constructor; assumption.
Qed.

Lemma try_setitem_all_layer_caches (d : MoEFullCache) (kv : string * pyobj) :
  all_layer_caches d -> all_layer_caches (try_setitem d kv).
Proof.
  intros Hd. unfold try_setitem, __setitem__.
  destruct (isinstance_MoELayerCache (snd kv)) eqn:Hv; [|exact Hd].
  now apply dict_setitem_all_layer_caches.
Qed.

Lemma insertions_all_layer_caches (kvs : list (string * pyobj)) (d : MoEFullCache) :
  all_layer_caches d -> all_layer_caches (insertions d kvs).
Proof.
  unfold insertions. revert d.
  induction kvs as [|kv kvs IH]; intros d Hd; simpl.
  - exact Hd.
  - apply IH. now apply try_setitem_all_layer_caches.
Qed.

End CacheInvariant.

(** C10, as the code has it: [__setitem__] raises an assertion error on a
    value that is not a [MoELayerCache] and stores any other value under its
    key; the constructor copies its argument unchecked; so after any sequence
    of insertions into a cache constructed from a mapping whose values are
    all [MoELayerCache]s, every entry is a [MoELayerCache]. *)
Theorem setitem_keeps_layer_caches :
  (forall (self : MoEFullCache) (idx : string) (cache : pyobj),
      isinstance_MoELayerCache cache = false ->
      __setitem__ self idx cache = Raise AssertionError) /\
  (forall (self : MoEFullCache) (idx : string) (cache : pyobj),
      isinstance_MoELayerCache cache = true ->
      __setitem__ self idx cache = Ok (dict_setitem self idx cache) /\
      dict_get (dict_setitem self idx cache) idx = Some cache) /\
  (forall (moe_cache_dict : dict pyobj) (kvs : list (string * pyobj)),
      all_layer_caches moe_cache_dict ->
      all_layer_caches (insertions (__init__ moe_cache_dict) kvs)).
Proof.
  split; [|split].
  - intros self idx cache H. unfold __setitem__. now rewrite H.
  - intros self idx cache H. unfold __setitem__. rewrite H.
    split; [reflexivity|apply dict_get_setitem].
  - intros d kvs Hd. now apply insertions_all_layer_caches.
Qed.

(** C10, as stated, fails: the cache constructed from {"layer1": 0} holds
    an entry that is not a [MoELayerCache], and insertions do not remove
    it. *)
Lemma constructor_stores_unchecked :
  exists (idx : string) (v : pyobj),
    dict_get (__init__ [("layer1"%string, PyInt 0)]) idx = Some v /\
    isinstance_MoELayerCache v = false /\
    dict_get (insertions (__init__ [("layer1"%string, PyInt 0)])
                         [("layer2"%string, PyLayerCache (layer_cache_of [[0]]))]) idx
    = Some v.
Proof.
  exists "layer1"%string, (PyInt 0). repeat split.
Qed.

(* ================================================================== *)
(** * Merging experts *)

Section Tabulate.

Lemma list_tab {A : Type} (d : A) (l : list A) :
  map (fun i => nth i l d) (seq 0 (length l)) = l.
Proof.
  induction l as [|x l IH]; simpl.
  - reflexivity.
  - f_equal. rewrite <- seq_shift, map_map. exact IH.
Qed.

Lemma tab1_length (n : nat) (f : nat -> R) : length (tab1 n f) = n.
Proof. unfold tab1. now rewrite length_map, length_seq. Qed.

Lemma tab1_nth (n : nat) (f : nat -> R) (i : nat) :
  (i < n)%nat -> nth i (tab1 n f) 0 = f i.
Proof.
  intros Hi. unfold tab1.
  rewrite nth_indep with (d' := f 0%nat) by now rewrite length_map, length_seq.
  rewrite map_nth, seq_nth by assumption. reflexivity.
Qed.

Lemma tab1_ext (n : nat) (f g : nat -> R) :
  (forall i, (i < n)%nat -> f i = g i) -> tab1 n f = tab1 n g.
Proof.
  intros H. apply map_ext_in. intros i Hi. apply in_seq in Hi. apply H. lia.
Qed.

Lemma tab2_ext (a b : nat) (f g : nat -> nat -> R) :
  (forall i j, (i < a)%nat -> (j < b)%nat -> f i j = g i j) -> tab2 a b f = tab2 a b g.
Proof.
  intros H. apply map_ext_in. intros i Hi. apply in_seq in Hi.
  apply tab1_ext. intros j Hj. apply H; lia.
Qed.

Lemma vec_tab1 (n : nat) (v : vec) :
  length v = n -> v = tab1 n (fun i => nth i v 0).
Proof. intros <-. symmetry. apply list_tab. Qed.

Lemma mat_tab2 (a b : nat) (t : mat) :
  rect a b t -> t = tab2 a b (fun i j => nth j (nth i t []) 0).
Proof.
  intros [Hl Hr].
  transitivity (map (fun i => nth i t []) (seq 0 (length t)));
    [symmetry; apply list_tab|].
  rewrite Hl. apply map_ext_in. intros i Hi. apply in_seq in Hi.
  apply vec_tab1. rewrite Forall_forall in Hr. apply Hr, nth_In. lia.
Qed.

Lemma combine_map_same {A B C : Type} (f : A -> B) (g : A -> C) (l : list A) :
  combine (map f l) (map g l) = map (fun x => (f x, g x)) l.
Proof.
  induction l as [|x l IH]; simpl; [reflexivity|now rewrite IH].
Qed.

Lemma vscale_tab1 (x : R) (n : nat) (f : nat -> R) :
  vscale x (tab1 n f) = tab1 n (fun i => x * f i).
Proof. unfold vscale, tab1. now rewrite map_map. Qed.

Lemma vadd_tab1 (n : nat) (f g : nat -> R) :
  vadd (tab1 n f) (tab1 n g) = tab1 n (fun i => f i + g i).
Proof. unfold vadd, tab1. now rewrite combine_map_same, map_map. Qed.

Lemma mscale_tab2 (x : R) (a b : nat) (f : nat -> nat -> R) :
  mscale x (tab2 a b f) = tab2 a b (fun i j => x * f i j).
Proof.
  unfold mscale, tab2. rewrite map_map. apply map_ext. intros i.
  apply vscale_tab1.
Qed.

Lemma madd_tab2 (a b : nat) (f g : nat -> nat -> R) :
  madd (tab2 a b f) (tab2 a b g) = tab2 a b (fun i j => f i j + g i j).
Proof.
  unfold madd, tab2. rewrite combine_map_same, map_map. apply map_ext. intros i.
  apply vadd_tab1.
Qed.

Lemma Rsum_seq_S (g : nat -> R) (n : nat) :
  Rsum (map g (seq 0 (S n))) = g 0%nat + Rsum (map (fun e => g (S e)) (seq 0 n)).
Proof. simpl. now rewrite <- seq_shift, map_map. Qed.

Lemma transpose_tab2 (a b : nat) (f : nat -> nat -> R) :
  (0 < a)%nat -> transpose (tab2 a b f) = tab2 b a (fun j i => f i j).
Proof.
  intros Ha. unfold transpose.
  assert (Hc : ncols (tab2 a b f) = b).
  { destruct a as [|a]; [lia|]. unfold tab2. simpl. apply tab1_length. }
  rewrite Hc. apply map_ext_in. intros j Hj. apply in_seq in Hj.
  unfold column, tab2. rewrite map_map. apply map_ext. intros i.
  apply tab1_nth. lia.
Qed.

End Tabulate.

Section WeightedSums.

Lemma weighted_sum_vec_tab (n : nat) (ts : list vec) :
  forall m : vec,
    ts <> [] -> length m = length ts -> Forall (fun t => length t = n) ts ->
    weighted_sum_vec m ts =
    tab1 n (fun i => Rsum (map (fun e => at1 m e * at2 ts e i) (seq 0 (length ts)))).
Proof.
  induction ts as [|t ts IH]; intros m Hne Hlen Hall; [congruence|].
  destruct m as [|x m]; [discriminate|].
  apply Forall_cons_iff in Hall. destruct Hall as [Ht Hts].
  destruct ts as [|t' ts'].
  - simpl weighted_sum_vec.
    replace (vscale x t) with (vscale x (tab1 n (fun i => nth i t 0)))
      by (now rewrite <- vec_tab1).
    rewrite vscale_tab1. apply tab1_ext. intros i Hi.
    unfold at1, at2. simpl. lra.
  - change (weighted_sum_vec (x :: m) (t :: t' :: ts'))
      with (vadd (vscale x t) (weighted_sum_vec m (t' :: ts'))).
    rewrite (IH m) by (try discriminate; simpl in *; try lia; assumption).
    replace (vscale x t) with (vscale x (tab1 n (fun i => nth i t 0)))
      by (now rewrite <- vec_tab1).
    rewrite vscale_tab1, vadd_tab1. apply tab1_ext. intros i Hi.
    change (length (t :: t' :: ts')) with (S (length (t' :: ts'))).
    rewrite Rsum_seq_S. reflexivity.
Qed.

Lemma weighted_sum_mat_tab (a b : nat) (ts : list mat) :
  forall m : vec,
    ts <> [] -> length m = length ts -> Forall (rect a b) ts ->
    weighted_sum_mat m ts =
    tab2 a b (fun i j => Rsum (map (fun e => at1 m e * at3 ts e i j) (seq 0 (length ts)))).
Proof.
  induction ts as [|t ts IH]; intros m Hne Hlen Hall; [congruence|].
  destruct m as [|x m]; [discriminate|].
  apply Forall_cons_iff in Hall. destruct Hall as [Ht Hts].
  destruct ts as [|t' ts'].
  - simpl weighted_sum_mat.
    replace (mscale x t)
      with (mscale x (tab2 a b (fun i j => nth j (nth i t []) 0)))
      by (now rewrite <- mat_tab2).
    rewrite mscale_tab2. apply tab2_ext. intros i j Hi Hj.
    unfold at1, at3. simpl. lra.
  - change (weighted_sum_mat (x :: m) (t :: t' :: ts'))
      with (madd (mscale x t) (weighted_sum_mat m (t' :: ts'))).
    rewrite (IH m) by (try discriminate; simpl in *; try lia; assumption).
    replace (mscale x t)
      with (mscale x (tab2 a b (fun i j => nth j (nth i t []) 0)))
      by (now rewrite <- mat_tab2).
    rewrite mscale_tab2, madd_tab2. apply tab2_ext. intros i j Hi Hj.
    change (length (t :: t' :: ts')) with (S (length (t' :: ts'))).
    rewrite Rsum_seq_S. reflexivity.
Qed.

Lemma Rsum_map_ext_seq (f g : nat -> R) (n : nat) :
  (forall e, (e < n)%nat -> f e = g e) ->
  Rsum (map f (seq 0 n)) = Rsum (map g (seq 0 n)).
Proof.
  intros H. f_equal. apply map_ext_in. intros e He. apply in_seq in He. apply H. lia.
Qed.

(** The einsum of the two weight tensors is the transposed weighted sum. *)
Lemma einsum_eab_e__ba_weighted_sum (a b : nat) (ts : list mat) (m : vec) :
  ts <> [] -> length m = length ts -> Forall (rect a b) ts ->
  einsum_eab_e__ba ts m = Ok (transpose (weighted_sum_mat m ts)).
Proof.
  intros Hne Hlen Hall. unfold einsum_eab_e__ba.
  rewrite <- Hlen, Nat.eqb_refl, Hlen. f_equal.
  rewrite (weighted_sum_mat_tab a b) by assumption.
  destruct ts as [|t ts]; [congruence|].
  inversion Hall as [|? ? Ht _]; subst.
  assert (Ha : axis1 (t :: ts) = a) by (simpl; apply Ht).
  destruct a as [|a].
  - assert (Hb : axis2 (t :: ts) = 0%nat).
    { simpl. destruct Ht as [Hl _]. destruct t; [reflexivity|discriminate]. }
    rewrite Hb. reflexivity.
  - assert (Hb : axis2 (t :: ts) = b) by (simpl; apply (rect_ncols (S a)); [lia|exact Ht]).
    rewrite Ha, Hb, transpose_tab2 by lia.
    apply tab2_ext. intros j i Hj Hi.
    apply Rsum_map_ext_seq. intros e He. lra.
Qed.

(** The einsum of the two bias tensors is the weighted sum. *)
Lemma einsum_ea_e__a_weighted_sum (n : nat) (ts : list vec) (m : vec) :
  ts <> [] -> length m = length ts -> Forall (fun t => length t = n) ts ->
  einsum_ea_e__a ts m = Ok (weighted_sum_vec m ts).
Proof.
  intros Hne Hlen Hall. unfold einsum_ea_e__a.
  rewrite <- Hlen, Nat.eqb_refl, Hlen. f_equal.
  rewrite (weighted_sum_vec_tab n) by assumption.
  destruct ts as [|t ts]; [congruence|].
  inversion Hall as [|? ? Ht _]; subst. simpl ncols.
  apply tab1_ext. intros i Hi.
  apply Rsum_map_ext_seq. intros e He. lra.
Qed.

Lemma stack_vecs (n : nat) (ts : list vec) :
  ts <> [] -> Forall (fun t => length t = n) ts -> stack same_shape1 ts = Ok ts.
Proof.
  destruct ts as [|t0 ts]; [congruence|]. intros _ H.
  inversion H as [|? ? H0 Hrest]; subst. simpl.
  replace (forallb (same_shape1 t0) ts) with true; [reflexivity|].
  symmetry. apply forallb_forall. intros t Ht.
  rewrite Forall_forall in Hrest. unfold same_shape1.
  apply Nat.eqb_eq. symmetry. apply Hrest, Ht.
Qed.

End WeightedSums.

Section Merge.

Lemma merge_weights_and_biases_value
    (experts : ExpertList) (m : vec) (a b p c d q : nat) :
  experts <> [] -> length m = length experts ->
  Forall (expert_of_shape a b p c d q) experts ->
  merge_weights_and_biases experts m =
  Ok (mkExpertLinearParams
        (transpose (weighted_sum_mat m (map up_expert_weight experts)))
        (weighted_sum_vec m (map up_expert_bias experts))
        (transpose (weighted_sum_mat m (map down_expert_weight experts)))
        (weighted_sum_vec m (map down_expert_bias experts))).
Proof.
  intros Hne Hlen Hall.
  assert (Hmap : forall (A : Type) (f : Expert -> A), map f experts <> []).
  { intros A f. destruct experts; [congruence|discriminate]. }
  assert (Huw : Forall (rect a b) (map up_expert_weight experts)).
  { apply Forall_map. eapply Forall_impl; [|exact Hall]. intros e He. apply He. }
  assert (Hub : Forall (fun t => length t = p) (map up_expert_bias experts)).
  { apply Forall_map. eapply Forall_impl; [|exact Hall]. intros e He. apply He. }
  assert (Hdw : Forall (rect c d) (map down_expert_weight experts)).
  { apply Forall_map. eapply Forall_impl; [|exact Hall]. intros e He. apply He. }
  assert (Hdb : Forall (fun t => length t = q) (map down_expert_bias experts)).
  { apply Forall_map. eapply Forall_impl; [|exact Hall]. intros e He. apply He. }
  unfold merge_weights_and_biases, up_expert_weights, up_expert_biases,
    down_expert_weights, down_expert_biases.
  rewrite (stack_rect a b), (stack_rect c d), (stack_vecs p), (stack_vecs q)
    by (try apply Hmap; assumption).
  simpl bind.
  rewrite (einsum_eab_e__ba_weighted_sum a b), (einsum_eab_e__ba_weighted_sum c d),
    (einsum_ea_e__a_weighted_sum p), (einsum_ea_e__a_weighted_sum q)
    by (try apply Hmap; try (rewrite length_map; exact Hlen); assumption).
  reflexivity.
Qed.

Lemma Rsum_indicator (g : nat -> R) (i n : nat) :
  forall s : nat,
    Rsum (map (fun e => (if Nat.eqb e i then 1 else 0) * g e) (seq s n)) =
    if ((s <=? i)%nat && (i <? s + n)%nat)%bool then g i else 0.
Proof.
  induction n as [|n IH]; intros s.
  - simpl. destruct (Nat.leb_spec s i), (Nat.ltb_spec i (s + 0)); simpl; try reflexivity; lia.
  - cbn [seq map Rsum fold_right]. fold (Rsum (map (fun e => (if Nat.eqb e i then 1 else 0) * g e) (seq (S s) n))).
    rewrite IH.
    destruct (Nat.eqb_spec s i) as [->|Hsi].
    + replace ((S i <=? i)%nat) with false by (symmetry; apply Nat.leb_gt; lia).
      replace ((i <=? i)%nat) with true by (symmetry; apply Nat.leb_le; lia).
      replace ((i <? i + S n)%nat) with true by (symmetry; apply Nat.ltb_lt; lia).
      simpl. lra.
    + destruct (Nat.leb_spec (S s) i), (Nat.ltb_spec i (S s + n)),
        (Nat.leb_spec s i), (Nat.ltb_spec i (s + S n)); simpl; try lra; lia.
Qed.

Lemma Rsum_one_hot (g : nat -> R) (n i : nat) :
  (i < n)%nat ->
  Rsum (map (fun e => at1 (one_hot n i) e * g e) (seq 0 n)) = g i.
Proof.
  intros Hi.
  rewrite (Rsum_map_ext_seq _ (fun e => (if Nat.eqb e i then 1 else 0) * g e)).
  - rewrite Rsum_indicator.
    replace ((0 <=? i)%nat) with true by (symmetry; apply Nat.leb_le; lia).
    replace ((i <? 0 + n)%nat) with true by (symmetry; apply Nat.ltb_lt; lia).
    reflexivity.
  - intros e He. f_equal. unfold at1, one_hot.
    apply (tab1_nth n (fun e => if Nat.eqb e i then 1 else 0)). exact He.
Qed.

Lemma nth_map_default {A B : Type} (f : A -> B) (l : list A) (i : nat) (d : A) (d' : B) :
  (i < length l)%nat -> nth i (map f l) d' = f (nth i l d).
Proof.
  intros Hi. rewrite nth_indep with (d' := f d) by now rewrite length_map.
  apply map_nth.
Qed.

Lemma one_hot_length (n i : nat) : length (one_hot n i) = n.
Proof. apply tab1_length. Qed.

Lemma weighted_sum_mat_one_hot (a b : nat) (ts : list mat) (n i : nat) :
  n = length ts -> (i < n)%nat -> Forall (rect a b) ts ->
  weighted_sum_mat (one_hot n i) ts = nth i ts [].
Proof.
  intros -> Hi Hall.
  rewrite (weighted_sum_mat_tab a b);
    [|intros ->; simpl in Hi; lia|apply one_hot_length|assumption].
  assert (Hr : rect a b (nth i ts [])).
  { rewrite Forall_forall in Hall. apply Hall, nth_In, Hi. }
  rewrite (mat_tab2 a b (nth i ts []) Hr).
  apply tab2_ext. intros u v Hu Hv.
  apply (Rsum_one_hot (fun e => at3 ts e u v)), Hi.
Qed.

Lemma weighted_sum_vec_one_hot (n : nat) (ts : list vec) (k i : nat) :
  k = length ts -> (i < k)%nat -> Forall (fun t => length t = n) ts ->
  weighted_sum_vec (one_hot k i) ts = nth i ts [].
Proof.
  intros -> Hi Hall.
  rewrite (weighted_sum_vec_tab n);
    [|intros ->; simpl in Hi; lia|apply one_hot_length|assumption].
  assert (Hr : length (nth i ts []) = n).
  { rewrite Forall_forall in Hall. apply Hall, nth_In, Hi. }
  rewrite (vec_tab1 n (nth i ts []) Hr).
  apply tab1_ext. intros u Hu.
  apply (Rsum_one_hot (fun e => at2 ts e u)), Hi.
Qed.

Lemma merge_weights_and_biases_one_hot
    (experts : ExpertList) (a b p c d q i : nat) (e0 : Expert) :
  (i < length experts)%nat ->
  Forall (expert_of_shape a b p c d q) experts ->
  merge_weights_and_biases experts (one_hot (length experts) i) =
  Ok (transposed_params_of (nth i experts e0)).
Proof.
  intros Hi Hall.
  rewrite (merge_weights_and_biases_value experts _ a b p c d q);
    [|intros ->; simpl in Hi; lia|apply one_hot_length|assumption].
  assert (Hl : forall (A : Type) (f : Expert -> A), length experts = length (map f experts))
    by (intros; now rewrite length_map).
  rewrite (weighted_sum_mat_one_hot a b), (weighted_sum_mat_one_hot c d),
    (weighted_sum_vec_one_hot p), (weighted_sum_vec_one_hot q).
  - unfold transposed_params_of.
    rewrite !(nth_map_default _ _ _ e0) by exact Hi.
    reflexivity.
  - apply Hl.
  - exact Hi.
  - apply Forall_map. eapply Forall_impl; [|exact Hall]. intros e He. apply He.
  - apply Hl.
  - exact Hi.
  - apply Forall_map. eapply Forall_impl; [|exact Hall]. intros e He. apply He.
  - apply Hl.
  - exact Hi.
  - apply Forall_map. eapply Forall_impl; [|exact Hall]. intros e He. apply He.
  - apply Hl.
  - exact Hi.
  - apply Forall_map. eapply Forall_impl; [|exact Hall]. intros e He. apply He.
Qed.

End Merge.

(** C3, as the code has it: for every non-empty list of experts of common
    shapes and every merging-weight vector with one entry per expert,
    [merge_weights_and_biases] returns parameters whose two biases are the
    weighted sums of the experts' biases and whose two weight matrices are
    the transposes of the weighted sums of the experts' weight matrices; so
    merging with the one-hot vector on expert [i] returns expert [i]'s biases
    and the transposes of its two weight matrices. *)
Theorem merge_weights_and_biases_transposed_weighted_sum
    (experts : ExpertList) (m : vec) (a b p c d q : nat) :
  experts <> [] -> length m = length experts ->
  Forall (expert_of_shape a b p c d q) experts ->
  merge_weights_and_biases experts m =
  Ok (mkExpertLinearParams
        (transpose (weighted_sum_mat m (map up_expert_weight experts)))
        (weighted_sum_vec m (map up_expert_bias experts))
        (transpose (weighted_sum_mat m (map down_expert_weight experts)))
        (weighted_sum_vec m (map down_expert_bias experts))) /\
  (forall (i : nat) (e0 : Expert),
      (i < length experts)%nat ->
      merge_weights_and_biases experts (one_hot (length experts) i) =
      Ok (transposed_params_of (nth i experts e0))).
Proof.
  intros Hne Hlen Hall. split.
  - now apply (merge_weights_and_biases_value experts m a b p c d q).
  - intros i e0 Hi. now apply (merge_weights_and_biases_one_hot experts a b p c d q).
Qed.

Lemma m_experts_shape : Forall (expert_of_shape 1 2 1 2 1 2) [m_expert; m_expert'].
Proof. repeat constructor. Qed.

Lemma merge_weights_and_biases_transposed_weighted_sum_witness :
  merge_weights_and_biases [m_expert; m_expert'] [/ 4; 3 / 4] =
  Ok (mkExpertLinearParams
        (transpose (weighted_sum_mat [/ 4; 3 / 4]
                      (map up_expert_weight [m_expert; m_expert'])))
        (weighted_sum_vec [/ 4; 3 / 4] (map up_expert_bias [m_expert; m_expert']))
        (transpose (weighted_sum_mat [/ 4; 3 / 4]
                      (map down_expert_weight [m_expert; m_expert'])))
        (weighted_sum_vec [/ 4; 3 / 4] (map down_expert_bias [m_expert; m_expert']))) /\
  (forall (i : nat) (e0 : Expert),
      (i < length [m_expert; m_expert'])%nat ->
      merge_weights_and_biases [m_expert; m_expert']
        (one_hot (length [m_expert; m_expert']) i) =
      Ok (transposed_params_of (nth i [m_expert; m_expert'] e0))).
Proof.
  apply (merge_weights_and_biases_transposed_weighted_sum
           [m_expert; m_expert'] [/ 4; 3 / 4] 1 2 1 2 1 2).
  - discriminate.
  - reflexivity.
  - exact m_experts_shape.
Defined.

(** C3, as stated, fails: merging two experts with the one-hot vector on
    expert 0 returns its up-projection weight [[1; 2]] as [[1]; [2]], which
    is not the expert's parameter. *)
Lemma merge_one_hot_is_transposed :
  merge_weights_and_biases [m_expert; m_expert'] (one_hot 2 0) =
  Ok (mkExpertLinearParams [[1]; [2]] [3] [[4; 5]] [6; 7]) /\
  mkExpertLinearParams [[1]; [2]] [3] [[4; 5]] [6; 7] <> params_of m_expert.
Proof.
  split.
  - exact (merge_weights_and_biases_one_hot [m_expert; m_expert'] 1 2 1 2 1 2 0 m_expert
             (Nat.lt_0_succ 1) m_experts_shape).
  - unfold params_of, m_expert. simpl. intros H. inversion H.
Qed.

(* ================================================================== *)
(** * The MoE layer: construction, hash routing and shapes *)

Lemma init_ok (cfg : GroupMoE.MoEConfig) (id : string) (rw : mat) (bank : ExpertList)
    (layer : GroupMoE.GroupMoELayer) :
  GroupMoE.__init__ cfg id rw bank = Ok layer ->
  GroupMoE.config layer = cfg /\ GroupMoE.experts layer = bank /\
  GroupMoE.valid_k_c cfg = true /\
  (GroupMoE.router_str cfg = "hash"%string -> GroupMoE.router layer = GroupMoE.HashRouter) /\
  (GroupMoE.router layer = GroupMoE.HashRouter -> GroupMoE.router_str cfg = "hash"%string).
Proof.
  unfold GroupMoE.__init__.
  destruct (String.eqb_spec (GroupMoE.router_str cfg) "hash") as [Hh|Hh]; simpl.
  - destruct (GroupMoE.valid_k_c cfg); [|discriminate].
    intros H. inversion H; subst. simpl. tauto.
  - destruct (String.eqb_spec (GroupMoE.router_str cfg) "linear") as [Hl|Hl]; simpl; [|discriminate].
    destruct (GroupMoE.valid_k_c cfg); [|discriminate].
    intros H. inversion H; subst. simpl. repeat split; try tauto; discriminate.
Qed.

Section LayerFacts.

Import GroupMoE.

Variable act_fn : R -> R.
Variable dropout : vec -> vec.
Variable policy : MoEConfig -> mat -> Assignment.
Hypothesis dropout_length : forall v, length (dropout v) = length v.

Lemma linear_ok (w : mat) (b x : vec) (r n : nat) :
  rect r n w -> length b = r -> length x = n ->
  exists y, linear w b x = Ok y /\ length y = r.
Proof.
  intros [Hl Hr] Hb Hx. unfold linear.
  replace (forallb (fun row => Nat.eqb (length row) (length x)) w) with true.
  - rewrite Hb, <- Hl, Nat.eqb_refl. simpl. eexists. split; [reflexivity|].
    rewrite length_map, length_combine. lia.
  - symmetry. apply forallb_forall. intros row Hrow.
    rewrite Forall_forall in Hr. apply Nat.eqb_eq. rewrite Hx. now apply Hr.
Qed.

Lemma Expert_forward_ok (e : Expert) (x : vec) (up h : nat) :
  expert_of_shape up h up h up h e -> length x = h ->
  exists y, Expert_forward act_fn dropout e x = Ok y /\ length y = h.
Proof.
  intros (Huw & Hub & Hdw & Hdb) Hx. unfold Expert_forward.
  destruct (linear_ok _ _ x up h Huw Hub Hx) as [u [-> Hu]]. simpl.
  destruct (linear_ok (down_expert_weight e) (down_expert_bias e) (map act_fn u) h up Hdw Hdb)
    as [y [-> Hy]]; [now rewrite length_map|].
  simpl. eexists. split; [reflexivity|]. now rewrite dropout_length.
Qed.

Lemma vadd_length (u v : vec) : length (vadd u v) = Nat.min (length u) (length v).
Proof. unfold vadd. now rewrite length_map, length_combine. Qed.

Lemma vscale_length (a : R) (v : vec) : length (vscale a v) = length v.
Proof. unfold vscale. apply length_map. Qed.

Lemma combine_token_ok (bank : ExpertList) (up h : nat) (x : vec) (asg : list (nat * R)) :
  Forall (expert_of_shape up h up h up h) bank -> length x = h ->
  Forall (fun ew => (fst ew < length bank)%nat) asg ->
  exists y, combine_token act_fn dropout bank h x asg = Ok y /\ length y = h.
Proof.
  intros Hbank Hx Hasg. induction Hasg as [|[e w] asg He _ IH]; simpl.
  - eexists. split; [reflexivity|]. apply repeat_length.
  - simpl in He. destruct (nth_error bank e) as [ex|] eqn:Hnth.
    + assert (Hex : expert_of_shape up h up h up h ex).
      { rewrite Forall_forall in Hbank. eapply Hbank, nth_error_In, Hnth. }
      destruct (Expert_forward_ok ex x up h Hex Hx) as [y [-> Hy]]. simpl.
      destruct IH as [acc [-> Hacc]]. simpl.
      eexists. split; [reflexivity|].
      rewrite vadd_length, vscale_length. lia.
    + apply nth_error_None in Hnth. lia.
Qed.

Lemma mapM_ok {A B : Type} (f : A -> result B) (P : B -> Prop) (l : list A) :
  (forall a, In a l -> exists b, f a = Ok b /\ P b) ->
  exists bs, mapM f l = Ok bs /\ length bs = length l /\ Forall P bs.
Proof.
  induction l as [|a l IH]; intros H; simpl.
  - exists []. repeat split. constructor.
  - destruct (H a (or_introl eq_refl)) as [b [-> Hb]]. simpl.
    destruct IH as [bs [-> [Hlen Hall]]]; [intros; apply H; now right|].
    simpl. exists (b :: bs). repeat split; [simpl; lia|now constructor].
Qed.

Lemma concat_length {A : Type} (b s : nat) (l : list (list A)) :
  length l = b -> Forall (fun row => length row = s) l ->
  length (concat l) = (b * s)%nat.
Proof.
  intros <- H. induction H as [|r l Hr _ IH]; simpl.
  - reflexivity.
  - rewrite length_app, IH, Hr. reflexivity.
Qed.

Lemma shape3_tokens (b s h : nat) (x : tensor3) :
  shape3 b s h x ->
  length (flatten01 x) = (b * s)%nat /\
  Forall (fun tok => length tok = h) (flatten01 x).
Proof.
  intros [Hl Hr]. split.
  - apply concat_length; [assumption|].
    eapply Forall_impl; [|exact Hr]. intros m Hm. apply Hm.
  - unfold flatten01. clear Hl. induction Hr as [|m x [_ Hm] _ IH]; simpl.
    + constructor.
    + apply Forall_app. split; assumption.
Qed.

Lemma hash_assignment_fits (n : nat) (ids : list Z) :
  (0 < n)%nat ->
  length (hash_assignment n ids) = length ids /\
  Forall (Forall (fun ew => (fst ew < n)%nat)) (hash_assignment n ids).
Proof.
  intros Hn. unfold hash_assignment. split; [apply length_map|].
  apply Forall_map, Forall_forall. intros id _. repeat constructor. simpl.
  pose proof (Z.mod_pos_bound id (Z.of_nat n) ltac:(lia)). lia.
Qed.

Lemma router_logits_ok (w : mat) (x : vec) (n h : nat) :
  rect n h w -> length x = h -> exists l, router_logits w x = Ok l /\ length l = n.
Proof.
  intros [Hl Hr] Hx. unfold router_logits.
  replace (forallb (fun row => Nat.eqb (length row) (length x)) w) with true.
  - eexists. split; [reflexivity|]. now rewrite length_map.
  - symmetry. apply forallb_forall. intros row Hrow.
    rewrite Forall_forall in Hr. apply Nat.eqb_eq. rewrite Hx. now apply Hr.
Qed.

(** The combiner puts an output of the hidden size at every position. *)
Lemma outputs_shape (b s h : nat) (outs : mat) (s0 : nat) :
  length outs = (b * s)%nat -> Forall (fun v => length v = h) outs ->
  (b = 0%nat \/ s0 = s) ->
  shape3 b s h
    (map (fun i => map (fun j => nth (i * s0 + j) outs []) (seq 0 s0)) (seq 0 b)).
Proof.
  intros Hlen Hall Hs. split.
  - now rewrite length_map, length_seq.
  - apply Forall_map, Forall_forall. intros i Hi. apply in_seq in Hi.
    destruct Hs as [ -> | -> ]; [lia|].
    split.
    + now rewrite length_map, length_seq.
    + apply Forall_map, Forall_forall. intros j Hj. apply in_seq in Hj.
      rewrite Forall_forall in Hall. apply Hall, nth_In. nia.
Qed.

Lemma forward_shape (layer : GroupMoELayer) (x : tensor3)
    (input_ids : option (list (list Z))) (b s up : nat) :
  policy_fits policy ->
  params_fit layer up ->
  shape3 b s (hidden_size (config layer)) x ->
  (router layer = HashRouter ->
   exists ids, input_ids = Some ids /\ ids_shape b s ids) ->
  exists y cache,
    forward act_fn dropout policy layer x input_ids = Ok (y, cache) /\
    shape3 b s (hidden_size (config layer)) y.
Proof.
  intros Hpol (Hn & Hbank & Hrouter) Hx Hids.
  set (h := hidden_size (config layer)) in *.
  destruct (shape3_tokens b s h x Hx) as [Htl Htok].
  assert (Hla : exists logits asg,
             match router layer with
             | HashRouter =>
                 match input_ids with
                 | None => Raise AssertionError
                 | Some ids =>
                     let asg := hash_assignment (num_experts (config layer)) (concat ids) in
                     Ok (map (map (fun ew => snd ew)) asg, asg)
                 end
             | LinearRouter w =>
                 logits <- mapM (router_logits w) (flatten01 x) ;;
                 Ok (logits, policy (config layer) logits)
             end = Ok (logits, asg) /\
             length asg = length (flatten01 x) /\
             Forall (Forall (fun ew => (fst ew < length (experts layer))%nat)) asg).
  { destruct (router layer) as [|w] eqn:Hr.
    - destruct (Hids eq_refl) as [ids [-> [Hil Hir]]].
      destruct (hash_assignment_fits (num_experts (config layer)) (concat ids) Hrouter)
        as [Hal Haf].
      do 2 eexists. split; [reflexivity|]. split.
      + rewrite Hal, Htl. now apply concat_length.
      + now rewrite Hn.
    - destruct (mapM_ok (router_logits w) (fun l => length l = num_experts (config layer))
                        (flatten01 x)) as [logits [-> [Hll _]]].
      { intros tok Htk. rewrite Forall_forall in Htok.
        apply (router_logits_ok w tok _ h Hrouter), Htok, Htk. }
      simpl. destruct (Hpol (config layer) logits) as [Hpl Hpf].
      do 2 eexists. split; [reflexivity|]. split; [lia|now rewrite Hn]. }
  destruct Hla as (logits & asg & Hla & Hal & Haf).
  unfold forward. cbv zeta. cbv zeta in Hla. rewrite Hla.
  simpl bind. cbn [fst snd].
  rewrite Hal, Nat.eqb_refl. simpl negb. cbv iota. fold h.
  destruct (mapM_ok
              (fun xa => combine_token act_fn dropout (experts layer) h (fst xa) (snd xa))
              (fun v => length v = h) (combine (flatten01 x) asg))
    as [outs [-> [Hol Hof]]].
  { intros [tok a] Hin. simpl.
    apply (combine_token_ok (experts layer) up h tok a Hbank).
    - rewrite Forall_forall in Htok. eapply Htok, in_combine_l, Hin.
    - rewrite Forall_forall in Haf. eapply Haf, in_combine_r, Hin. }
  simpl bind. do 2 eexists. split; [reflexivity|].
  replace (length x) with b by (symmetry; apply Hx).
  apply outputs_shape.
  - rewrite Hol, length_combine, Hal, Htl. lia.
  - exact Hof.
  - destruct Hx as [Hxl Hxr]. destruct x as [|m x]; simpl in *; [now left|right].
    inversion Hxr as [|? ? [Hm _] _]. exact Hm.
Qed.

End LayerFacts.

Section LayerClaims.

Import GroupMoE.

(** C4: for every layer that construction accepts, with parameters that fit
    its configuration, and every input of axes (batch, seq, hidden_size)
    (with token ids of axes (batch, seq) when the router is the hash router),
    the forward call returns an output of the same axes
    (batch, seq, hidden_size). *)
Theorem moe_layer_forward_preserves_shape
    (act_fn : R -> R) (dropout : vec -> vec) (policy : MoEConfig -> mat -> Assignment)
    (cfg : MoEConfig) (id : string) (router_weight : mat) (bank : ExpertList)
    (layer : GroupMoELayer) (x : tensor3) (input_ids : option (list (list Z)))
    (b s up : nat) :
  (forall v, length (dropout v) = length v) ->
  policy_fits policy ->
  GroupMoE.__init__ cfg id router_weight bank = Ok layer ->
  params_fit layer up ->
  shape3 b s (hidden_size cfg) x ->
  (router_str cfg = "hash"%string ->
   exists ids, input_ids = Some ids /\ ids_shape b s ids) ->
  exists y cache,
    forward act_fn dropout policy layer x input_ids = Ok (y, cache) /\
    shape3 b s (hidden_size cfg) y.
Proof.
  intros Hdrop Hpol Hinit Hfit Hx Hids.
  destruct (init_ok cfg id router_weight bank layer Hinit) as (Hc & _ & _ & _ & Hr).
  rewrite <- Hc in Hx |- *.
  apply (forward_shape act_fn dropout policy Hdrop layer x input_ids b s up); try assumption.
  intros Hrouter. apply Hids, Hr, Hrouter.
Qed.

Lemma drop_all_fits : policy_fits drop_all.
Proof.
  intros cfg logits. unfold drop_all. split; [apply length_map|].
  apply Forall_map, Forall_forall. intros; constructor.
Qed.

Lemma moe_layer_forward_preserves_shape_witness :
  exists y cache,
    forward relu no_dropout drop_all hash_layer x_1_2_2 (Some ids_1_2) = Ok (y, cache) /\
    shape3 1 2 (hidden_size hash_cfg) y.
Proof.
  apply (moe_layer_forward_preserves_shape relu no_dropout drop_all
           hash_cfg "layer1" [] [m_expert; m_expert'] hash_layer
           x_1_2_2 (Some ids_1_2) 1 2 1).
  - reflexivity.
  - exact drop_all_fits.
  - reflexivity.
  - split; [reflexivity|]. split; [exact m_experts_shape|]. simpl. lia.
  - split; [reflexivity|]. repeat constructor.
  - intros _. exists ids_1_2. split; [reflexivity|]. split; [reflexivity|].
    repeat constructor.
Defined.

(** C8: for every layer constructed with the hash router, the forward call
    without token ids fails with an assertion error, whatever the input
    tensor is: the assertion comes before routing, the experts and the
    combiner. *)
Theorem hash_router_forward_without_input_ids
    (act_fn : R -> R) (dropout : vec -> vec) (policy : MoEConfig -> mat -> Assignment)
    (cfg : MoEConfig) (id : string) (router_weight : mat) (bank : ExpertList)
    (layer : GroupMoELayer) (x : tensor3) :
  GroupMoE.__init__ cfg id router_weight bank = Ok layer ->
  router_str cfg = "hash"%string ->
  forward act_fn dropout policy layer x None = Raise AssertionError.
Proof.
  intros Hinit Hhash.
  destruct (init_ok cfg id router_weight bank layer Hinit) as (_ & _ & _ & Hr & _).
  unfold forward. rewrite (Hr Hhash). reflexivity.
Qed.

Lemma hash_router_forward_without_input_ids_witness :
  forward relu no_dropout drop_all hash_layer x_1_2_2 None = Raise AssertionError.
Proof.
  apply (hash_router_forward_without_input_ids relu no_dropout drop_all
           hash_cfg "layer1" [] [m_expert; m_expert'] hash_layer x_1_2_2).
  - reflexivity.
  - reflexivity.
Defined.

(** C9: constructing a layer with k = 0 and c = 0 fails with an assertion
    error; no layer is returned on which forward could be called. *)
Theorem init_rejects_k_0_and_c_0
    (cfg : MoEConfig) (id : string) (router_weight : mat) (bank : ExpertList) :
  k cfg = 0%nat -> Qeq (c cfg) 0 ->
  GroupMoE.__init__ cfg id router_weight bank = Raise AssertionError.
Proof.
  intros Hk Hc. unfold GroupMoE.__init__, valid_k_c.
  rewrite Hk. apply Qeq_bool_iff in Hc. rewrite Hc. simpl.
  destruct (String.eqb (router_str cfg) "hash"); simpl; [reflexivity|].
  destruct (String.eqb (router_str cfg) "linear"); reflexivity.
Qed.

Lemma init_rejects_k_0_and_c_0_witness :
  GroupMoE.__init__ k_0_c_0_cfg "layer1" [] [m_expert; m_expert'] = Raise AssertionError.
Proof.
  apply (init_rejects_k_0_and_c_0 k_0_c_0_cfg "layer1" [] [m_expert; m_expert']).
  - reflexivity.
  - reflexivity.
Defined.

End LayerClaims.

(* ================================================================== *)
(** * The load balancing loss does not read the logits *)

Section LoadBalancing.

Lemma reduce_sum_last_routing_probs (E T : nat) (rw : tensor3) :
  (0 < T)%nat -> Forall (rect E T) rw ->
  reduce_sum_last (HfModel.routing_probs rw) = repeat (repeat 1 E) (length rw).
Proof.
  intros HT H. unfold reduce_sum_last, HfModel.routing_probs.
  induction H as [|l rw [Hl Hrows] _ IH]; simpl.
  - reflexivity.
  - rewrite IH. f_equal. subst E. clear IH.
    induction Hrows as [|r l Hr _ IHl]; simpl.
    + reflexivity.
    + rewrite softmax_sum, IHl; [reflexivity|].
      intros ->. simpl in Hr. lia.
Qed.

Lemma mdiv_repeat (x d : R) (E L : nat) :
  mdiv (repeat (repeat x E) L) d = repeat (repeat (x / d) E) L.
Proof.
  unfold mdiv. rewrite map_repeat. f_equal. now rewrite map_repeat.
Qed.

Lemma Rsum_vmul_repeat (row : vec) (x : R) :
  Rsum (vmul row (repeat x (length row))) = Rsum row * x.
Proof.
  unfold vmul. induction row as [|a row IH]; simpl.
  - lra.
  - rewrite IH. lra.
Qed.

Lemma einsum_dot2_repeat (a : mat) (x : R) (E : nat) :
  Forall (fun row => length row = E) a ->
  einsum_dot2 a (repeat (repeat x E) (length a)) = Ok (Rsum (map Rsum a) * x).
Proof.
  intros H. unfold einsum_dot2, same_shape2.
  assert (Hs : row_lengths a = row_lengths (repeat (repeat x E) (length a))).
  { unfold row_lengths. rewrite map_repeat, repeat_length.
    induction H as [|r a Hr _ IH]; simpl; [reflexivity|now rewrite Hr, IH]. }
  destruct (list_eq_dec Nat.eq_dec _ _) as [_|Hn]; [|contradiction].
  f_equal. clear Hs. induction H as [|r a Hr _ IH]; simpl.
  - lra.
  - rewrite IH. subst E. rewrite Rsum_vmul_repeat. lra.
Qed.

(** With at least one token the loss is num_experts times the sum of the
    token fractions divided by num_tokens: the routing logits do not enter
    it. *)
Lemma load_balancing_aux_loss_function_value
    (c : TokenChoiceFullCache) (layers : list (string * MoELayerCache)) (E T : nat) :
  nonempty_full_cache c layers E T ->
  length (P c) = length layers -> Forall (fun pl => length pl = E) (P c) ->
  load_balancing_aux_loss_function c =
  Ok (INR (num_experts c) *
      (Rsum (map Rsum (mdiv (reduce_sum_last2 (P c)) (INR (num_tokens c))))
       * (1 / INR (num_tokens c)))).
Proof.
  intros Hc HPl HPr. unfold load_balancing_aux_loss_function.
  rewrite (routing_weights_tensor_ok c layers E T Hc). simpl bind.
  destruct Hc as (_ & _ & Hr & _ & HT & _).
  rewrite (reduce_sum_last_routing_probs E T) by assumption.
  rewrite mdiv_repeat.
  set (a := mdiv (reduce_sum_last2 (P c)) (INR (num_tokens c))).
  assert (Hal : length a = length (logits_of layers)).
  { unfold a, mdiv, reduce_sum_last2, logits_of. now rewrite !length_map. }
  assert (Har : Forall (fun row => length row = E) a).
  { unfold a, mdiv, reduce_sum_last2. rewrite map_map. apply Forall_map.
    eapply Forall_impl; [|exact HPr]. intros pl Hpl. simpl. now rewrite !length_map. }
  rewrite <- Hal, (einsum_dot2_repeat a _ E Har). reflexivity.
Qed.

End LoadBalancing.

(* ================================================================== *)
(** * [MoEFullCache]: when the stacked tensors exist, and their layer axis *)

Section FullCacheFacts.

Lemma stack_ok_inv {A : Type} (same : A -> A -> bool) (ts r : list A) :
  stack same ts = Ok r ->
  r = ts /\ exists t0 rest, ts = t0 :: rest /\ forallb (same t0) rest = true.
Proof.
  unfold stack. destruct ts as [|t0 rest]; [discriminate|].
  destruct (forallb (same t0) rest) eqn:Hs; [|discriminate].
  intros H. inversion H. split; [reflexivity|]. now exists t0, rest.
Qed.

Lemma stack_raises {A : Type} (same : A -> A -> bool) (ts : list A) (e : exn) :
  stack same ts = Raise e -> e = RuntimeError.
Proof.
  unfold stack. destruct ts as [|t0 rest]; [congruence|].
  destruct (forallb (same t0) rest); congruence.
Qed.

(** Reading one attribute of every entry: it succeeds exactly on the caches
    made of layer caches only, and a failure is an attribute error. *)
Lemma mapM_attribute {A : Type} (get : pyobj -> result A) (f : MoELayerCache -> A) :
  (forall v, get v = match v with
                     | PyLayerCache c => Ok (f c)
                     | _ => Raise AttributeError
                     end) ->
  forall self : MoEFullCache,
    (forall ts, mapM get (values self) = Ok ts ->
       exists layers, self = cache_of_layers layers /\ ts = map (fun kv => f (snd kv)) layers) /\
    (forall e, mapM get (values self) = Raise e ->
       e = AttributeError /\ FullCache.some_other_entry self).
Proof.
  intros Hget. unfold values, FullCache.some_other_entry.
  induction self as [|[k v] self [IHok IHerr]]; simpl.
  - split.
    + intros ts H. inversion H. now exists [].
    + intros e H. discriminate.
  - rewrite Hget. destruct v as [lc|z|s|]; simpl;
      try (split; [intros ts H; discriminate
                  |intros e H; inversion H; split; [reflexivity|now left]]).
    destruct (mapM get (map snd self)) as [ts'|e'] eqn:Hm; simpl.
    + split; [|intros e H; discriminate].
      intros ts H. inversion H; subst.
      destruct (IHok ts' eq_refl) as [layers [-> ->]].
      now exists ((k, lc) :: layers).
    + split; [intros ts H; discriminate|].
      intros e H. inversion H; subst.
      destruct (IHerr e eq_refl) as [-> Hex]. split; [reflexivity|now right].
Qed.

Lemma mapM_attribute_layers {A : Type} (get : pyobj -> result A) (f : MoELayerCache -> A) :
  (forall v, get v = match v with
                     | PyLayerCache c => Ok (f c)
                     | _ => Raise AttributeError
                     end) ->
  forall layers, mapM get (values (cache_of_layers layers)) =
                 Ok (map (fun kv => f (snd kv)) layers).
Proof.
  intros Hget. unfold values, cache_of_layers.
  induction layers as [|[k lc] layers IH]; simpl.
  - reflexivity.
  - rewrite Hget, IH. reflexivity.
Qed.

Lemma some_other_entry_not_layers (layers : list (string * MoELayerCache)) :
  ~ FullCache.some_other_entry (cache_of_layers layers).
Proof.
  unfold FullCache.some_other_entry, cache_of_layers. intros H.
  apply Exists_exists in H. destruct H as [kv [Hin Hf]].
  apply in_map_iff in Hin. destruct Hin as [[k lc] [<- _]]. discriminate.
Qed.

Lemma same_shape2_iff (a b : mat) : same_shape2 a b = true <-> row_lengths b = row_lengths a.
Proof.
  unfold same_shape2.
  destruct (list_eq_dec Nat.eq_dec (row_lengths a) (row_lengths b)); split; congruence.
Qed.

End FullCacheFacts.

(** X1: [routing_weights_tensor] returns a tensor exactly when the cache is
    not empty, every entry is a layer cache and all routing logits have the
    shape of the first; the tensor then lists the logits in insertion
    order. *)
Theorem routing_weights_tensor_returns_iff (self : MoEFullCache) (rw : tensor3) :
  routing_weights_tensor self = Ok rw <->
  exists layers : list (string * MoELayerCache),
    layers <> [] /\ self = cache_of_layers layers /\ rw = logits_of layers /\
    Forall (fun m => row_lengths m = row_lengths (hd [] rw)) rw.
Proof.
  unfold routing_weights_tensor. split.
  - destruct (mapM get_routing_weights (values self)) as [ts|e] eqn:Hm; simpl;
      [|discriminate].
    intros Hs.
    destruct (proj1 (mapM_attribute get_routing_weights routing_weights
                       (fun v => eq_refl) self) ts Hm) as [layers [-> Hts]].
    destruct (stack_ok_inv _ _ _ Hs) as [-> (t0 & rest & Ht & Hall)].
    exists layers. fold (logits_of layers) in Hts. subst ts.
    repeat split; try reflexivity.
    + intros ->. discriminate.
    + rewrite Ht. simpl. constructor; [reflexivity|].
      apply Forall_forall. intros m Hin.
      rewrite forallb_forall in Hall. now apply same_shape2_iff, Hall.
  - intros (layers & Hne & -> & -> & Hall).
    rewrite (mapM_attribute_layers get_routing_weights routing_weights (fun v => eq_refl)).
    fold (logits_of layers). simpl. unfold stack.
    destruct (logits_of layers) as [|t0 rest] eqn:Hl.
    + destruct layers; [congruence|discriminate].
    + simpl in Hall. inversion Hall as [|? ? _ Hrest]; subst.
      replace (forallb (same_shape2 t0) rest) with true; [reflexivity|].
      symmetry. apply forallb_forall. intros m Hin.
      rewrite Forall_forall in Hrest. now apply same_shape2_iff, Hrest.
Qed.

(** X2: [routing_weights_tensor] raises an attribute error exactly when some
    entry of the mapping is not a layer cache (the constructor lets such
    entries in); every other failure is the runtime error of [t.stack]. *)
Theorem routing_weights_tensor_attribute_error (self : MoEFullCache) :
  (routing_weights_tensor self = Raise AttributeError <->
   FullCache.some_other_entry self) /\
  (forall e, routing_weights_tensor self = Raise e ->
             e = AttributeError \/ e = RuntimeError).
Proof.
  unfold routing_weights_tensor.
  pose proof (mapM_attribute get_routing_weights routing_weights (fun v => eq_refl) self)
    as [Hok Herr].
  destruct (mapM get_routing_weights (values self)) as [ts|e0] eqn:Hm; simpl.
  - destruct (Hok ts eq_refl) as [layers [-> _]]. split; [split|].
    + intros Hs. apply stack_raises in Hs. discriminate.
    + intros Hex. now apply some_other_entry_not_layers in Hex.
    + intros e Hs. right. now apply stack_raises in Hs.
  - destruct (Herr e0 eq_refl) as [-> Hex]. split; [split|].
    + intros _. exact Hex.
    + reflexivity.
    + intros e H. inversion H. now left.
Qed.

Section SetitemFacts.

Lemma layer_indices_setitem (self : MoEFullCache) (idx : string) (v : pyobj) :
  layer_indices (dict_setitem self idx v) =
  if existsb (String.eqb idx) (layer_indices self)
  then layer_indices self
  else layer_indices self ++ [idx].
Proof.
  unfold layer_indices. induction self as [|[k' v'] self IH]; simpl.
  - reflexivity.
  - rewrite (String.eqb_sym idx k').
    destruct (String.eqb k' idx) eqn:Hk; simpl.
    + reflexivity.
    + rewrite IH. now destruct (existsb (String.eqb idx) (map fst self)).
Qed.

Lemma dict_get_setitem_other {V : Type} (d : dict V) (idx k : string) (v : V) :
  k <> idx -> dict_get (dict_setitem d idx v) k = dict_get d k.
Proof.
  intros Hk. induction d as [|[k' v'] d IH]; simpl.
  - destruct (String.eqb_spec idx k); [congruence|reflexivity].
  - destruct (String.eqb_spec k' idx) as [->|Hne]; simpl.
    + destruct (String.eqb_spec idx k); [congruence|reflexivity].
    + destruct (String.eqb k' k); [reflexivity|exact IH].
Qed.

Lemma dict_setitem_new {V : Type} (d : dict V) (idx : string) (v : V) :
  dict_get d idx = None -> dict_setitem d idx v = d ++ [(idx, v)].
Proof.
  induction d as [|[k' v'] d IH]; simpl.
  - reflexivity.
  - destruct (String.eqb k' idx); [discriminate|].
    intros H. now rewrite IH.
Qed.

Lemma mapM_app {A B : Type} (f : A -> result B) (l1 l2 : list A) :
  mapM f (l1 ++ l2) = (bs1 <- mapM f l1 ;; bs2 <- mapM f l2 ;; Ok (bs1 ++ bs2)).
Proof.
  induction l1 as [|a l1 IH]; simpl.
  - destruct (mapM f l2); reflexivity.
  - destruct (f a); simpl; [|reflexivity].
    rewrite IH. destruct (mapM f l1); simpl; [|reflexivity].
    destruct (mapM f l2); reflexivity.
Qed.

Lemma dict_get_nth {V : Type} (d : dict V) (i : nat) (dflt : string * V) :
  NoDup (map fst d) -> (i < length d)%nat ->
  dict_get d (fst (nth i d dflt)) = Some (snd (nth i d dflt)).
Proof.
  revert i. induction d as [|[k v] d IH]; intros i Hnd Hi; simpl in Hi; [lia|].
  inversion Hnd as [|? ? Hnotin Hnd']; subst.
  destruct i as [|i]; simpl.
  - now rewrite String.eqb_refl.
  - destruct (String.eqb_spec k (fst (nth i d dflt))) as [Heq|_].
    + exfalso. apply Hnotin. rewrite Heq. apply in_map, nth_In. lia.
    + apply IH; [assumption|lia].
Qed.

(** A stacked attribute of a cache with unique keys follows the keys. *)
Lemma stacked_attribute_follows {A : Type} (get : pyobj -> result A)
    (f : MoELayerCache -> A) (same : A -> A -> bool) (d : A)
    (self : MoEFullCache) (ts : list A) :
  (forall v, get v = match v with
                     | PyLayerCache c => Ok (f c)
                     | _ => Raise AttributeError
                     end) ->
  NoDup (layer_indices self) ->
  (r <- mapM get (values self) ;; stack same r) = Ok ts ->
  FullCache.follows_layer_indices self f d ts.
Proof.
  intros Hget Hnd Hts.
  destruct (mapM get (values self)) as [r|e] eqn:Hm; simpl in Hts; [|discriminate].
  destruct (proj1 (mapM_attribute get f Hget self) r Hm) as [layers [Hself ->]].
  destruct (stack_ok_inv _ _ _ Hts) as [-> _].
  assert (Hlen : length self = length layers).
  { rewrite Hself. unfold cache_of_layers. apply length_map. }
  unfold FullCache.follows_layer_indices, layer_indices. rewrite !length_map. split.
  - now rewrite Hlen.
  - intros i Hi.
    set (lc0 := mkMoELayerCache [] [] []).
    exists (snd (nth i layers (""%string, lc0))). split.
    + rewrite (nth_map_default fst self i (""%string, PyNone)) by lia.
      rewrite dict_get_nth by (try assumption; lia).
      f_equal. rewrite Hself. unfold cache_of_layers.
      now rewrite (nth_map_default _ layers i (""%string, lc0)) by lia.
    + now rewrite (nth_map_default _ layers i (""%string, lc0)) by lia.
Qed.

End SetitemFacts.

(** X3: a successful [__setitem__] keeps the order of [layer_indices]: a key
    that is already present keeps its place, a new key goes last; and the
    values stored under all other keys stay as they were. *)
Theorem setitem_layer_indices (self : MoEFullCache) (idx : string) (lc : MoELayerCache) :
  exists self' : MoEFullCache,
    __setitem__ self idx (PyLayerCache lc) = Ok self' /\
    layer_indices self' =
      (if existsb (String.eqb idx) (layer_indices self)
       then layer_indices self
       else layer_indices self ++ [idx]) /\
    (forall k : string, k <> idx -> dict_get self' k = dict_get self k).
Proof.
  exists (dict_setitem self idx (PyLayerCache lc)). split; [reflexivity|]. split.
  - apply layer_indices_setitem.
  - intros k Hk. now apply dict_get_setitem_other.
Qed.

(** X4: [__setitem__] does not look at shapes.  Inserting a layer cache
    under a new key into a cache whose [routing_weights_tensor] exists
    appends its logits as the last layer when they have the shape of the
    first layer, and makes [routing_weights_tensor] raise otherwise. *)
Theorem setitem_then_routing_weights_tensor
    (self : MoEFullCache) (idx : string) (lc : MoELayerCache) (rw : tensor3) :
  routing_weights_tensor self = Ok rw ->
  dict_get self idx = None ->
  exists self' : MoEFullCache,
    __setitem__ self idx (PyLayerCache lc) = Ok self' /\
    routing_weights_tensor self' =
      if same_shape2 (hd [] rw) (routing_weights lc)
      then Ok (rw ++ [routing_weights lc])
      else Raise RuntimeError.
Proof.
  intros Hrw Hnew.
  exists (dict_setitem self idx (PyLayerCache lc)). split; [reflexivity|].
  rewrite dict_setitem_new by assumption.
  unfold routing_weights_tensor in *. unfold values in *.
  rewrite map_app, mapM_app.
  destruct (mapM get_routing_weights (map snd self)) as [ts|e]; simpl in *; [|discriminate].
  destruct (stack_ok_inv _ _ _ Hrw) as [-> (t0 & rest & -> & Hall)].
  simpl. rewrite forallb_app, Hall. simpl. rewrite andb_true_r.
  now destruct (same_shape2 t0 (routing_weights lc)).
Qed.

Lemma setitem_then_routing_weights_tensor_witness :
  exists self' : MoEFullCache,
    __setitem__ CacheExamples.ab_cache "c" (PyLayerCache CacheExamples.lc_a) = Ok self' /\
    routing_weights_tensor self' =
      if same_shape2 (hd [] [[[1; 2]; [3; 4]]; [[5; 6]; [7; 8]]])
                     (routing_weights CacheExamples.lc_a)
      then Ok ([[[1; 2]; [3; 4]]; [[5; 6]; [7; 8]]] ++ [routing_weights CacheExamples.lc_a])
      else Raise RuntimeError.
Proof.
  apply (setitem_then_routing_weights_tensor CacheExamples.ab_cache "c" CacheExamples.lc_a
           [[[1; 2]; [3; 4]]; [[5; 6]; [7; 8]]]).
  - reflexivity.
  - reflexivity.
Defined.

(** X5: on a cache with unique keys, the layer axis of [G],
    [token_assignments] and [routing_weights_tensor] follows
    [layer_indices]: each tensor has one slice per key, and slice [i] is the
    attribute of the layer cache stored under the [i]-th key. *)
Theorem stacked_tensors_follow_layer_indices (self : MoEFullCache) :
  NoDup (layer_indices self) ->
  (forall g, FullCache.G self = Ok g ->
             FullCache.follows_layer_indices self Cache.G [] g) /\
  (forall ta, FullCache.token_assignments self = Ok ta ->
              FullCache.follows_layer_indices self Cache.token_assignments [] ta) /\
  (forall rw, routing_weights_tensor self = Ok rw ->
              FullCache.follows_layer_indices self routing_weights [] rw).
Proof.
  intros Hnd. split; [|split].
  - intros g Hg.
    apply (stacked_attribute_follows FullCache.get_G Cache.G same_shape2);
      [reflexivity|assumption|exact Hg].
  - intros ta Hta.
    apply (stacked_attribute_follows FullCache.get_token_assignments
             Cache.token_assignments FullCache.same_shape2Z);
      [reflexivity|assumption|exact Hta].
  - intros rw Hrw.
    apply (stacked_attribute_follows get_routing_weights routing_weights same_shape2);
      [reflexivity|assumption|exact Hrw].
Qed.

Lemma stacked_tensors_follow_layer_indices_witness :
  (forall g, FullCache.G CacheExamples.ab_cache = Ok g ->
             FullCache.follows_layer_indices CacheExamples.ab_cache Cache.G [] g) /\
  (forall ta, FullCache.token_assignments CacheExamples.ab_cache = Ok ta ->
              FullCache.follows_layer_indices CacheExamples.ab_cache
                Cache.token_assignments [] ta) /\
  (forall rw, routing_weights_tensor CacheExamples.ab_cache = Ok rw ->
              FullCache.follows_layer_indices CacheExamples.ab_cache routing_weights [] rw).
Proof.
  apply (stacked_tensors_follow_layer_indices CacheExamples.ab_cache).
  repeat constructor; simpl; intuition discriminate.
Defined.

(* ================================================================== *)
(** * The losses as functions of the logits *)

Section LossFacts.

Lemma Rsum_exp_shift (k : R) (v : vec) :
  Rsum (map exp (map (Rplus k) v)) = exp k * Rsum (map exp v).
Proof.
  induction v as [|x v IH]; simpl.
  - lra.
  - rewrite IH, exp_plus. lra.
Qed.

Lemma softmax_shift (k : R) (v : vec) : softmax (map (Rplus k) v) = softmax v.
Proof.
  destruct v as [|x0 v0] eqn:Hv; [reflexivity|]. rewrite <- Hv.
  assert (Hne : v <> []) by (rewrite Hv; discriminate).
  unfold softmax. rewrite Rsum_exp_shift, map_map.
  apply map_ext. intros x. rewrite exp_plus.
  pose proof (Rsum_exp_pos v Hne). pose proof (exp_pos k). field. lra.
Qed.

Lemma logsumexp_shift (k : R) (v : vec) :
  v <> [] -> logsumexp (map (Rplus k) v) = logsumexp v + k.
Proof.
  intros Hne. unfold logsumexp. rewrite Rsum_exp_shift.
  rewrite ln_mult by (try apply exp_pos; now apply Rsum_exp_pos).
  rewrite ln_exp. lra.
Qed.

Lemma logits_of_shift (k : R) (layers : list (string * MoELayerCache)) :
  logits_of (Shift.shift_layers k layers) = map (map (map (Rplus k))) (logits_of layers).
Proof.
  unfold logits_of, Shift.shift_layers. rewrite !map_map. reflexivity.
Qed.

Lemma routing_probs_shift (k : R) (rw : tensor3) :
  HfModel.routing_probs (map (map (map (Rplus k))) rw) = HfModel.routing_probs rw.
Proof.
  unfold HfModel.routing_probs. rewrite map_map. apply map_ext. intros l.
  rewrite map_map. apply map_ext. intros v. apply softmax_shift.
Qed.

Lemma rect_shift (k : R) (E T : nat) (m : mat) :
  rect E T m -> rect E T (map (map (Rplus k)) m).
Proof.
  intros [Hl Hr]. split; [now rewrite length_map|].
  apply Forall_map. eapply Forall_impl; [|exact Hr].
  intros r Hlen. simpl. now rewrite length_map.
Qed.

Lemma nonempty_full_cache_shift (k : R) (c c' : TokenChoiceFullCache)
    (layers : list (string * MoELayerCache)) (E T : nat) :
  nonempty_full_cache c layers E T ->
  entries c' = cache_of_layers (Shift.shift_layers k layers) ->
  num_tokens c' = num_tokens c ->
  nonempty_full_cache c' (Shift.shift_layers k layers) E T.
Proof.
  intros (Hne & _ & Hr & HE & HT & Hn) He Hnt. repeat split; try assumption.
  - destruct layers; [congruence|discriminate].
  - rewrite logits_of_shift. apply Forall_map.
    eapply Forall_impl; [|exact Hr]. intros m. apply rect_shift.
  - now rewrite Hnt.
Qed.

Lemma Rsum_nonneg_zero {A : Type} (f : A -> R) (l : list A) :
  (forall a, In a l -> 0 <= f a) ->
  (Rsum (map f l) = 0 <-> Forall (fun a => f a = 0) l).
Proof.
  induction l as [|a l IH]; intros Hpos; simpl.
  - split; [constructor|reflexivity].
  - assert (Ha : 0 <= f a) by (apply Hpos; now left).
    assert (Hl : 0 <= Rsum (map f l)) by (apply Rsum_map_nonneg; intros; apply Hpos; now right).
    assert (IH' := IH (fun b Hb => Hpos b (or_intror Hb))).
    split.
    + intros H. constructor; [lra|]. apply IH'. lra.
    + intros H. inversion H as [|? ? H0 Hrest]; subst.
      apply IH' in Hrest. lra.
Qed.

Lemma flat_logits_rows (E T : nat) (rw : tensor3) :
  Forall (rect E T) rw -> Forall (fun row => length row = T) (flatten01 rw).
Proof.
  intros H. unfold flatten01. induction H as [|l rw [_ Hl] _ IH]; simpl.
  - constructor.
  - apply Forall_app. split; assumption.
Qed.

Lemma router_z_loss_function_on_rows
    (c : TokenChoiceFullCache) (layers : list (string * MoELayerCache)) (E T : nat) :
  nonempty_full_cache c layers E T ->
  router_z_loss_function c =
  Ok (Rsum (map (fun row => logsumexp row ^ 2) (flatten01 (logits_of layers)))
      / INR (num_tokens c)).
Proof.
  intros Hc. unfold router_z_loss_function.
  rewrite (routing_weights_tensor_ok c layers E T Hc). simpl bind.
  do 2 f_equal. unfold einsum_total, flatten01.
  rewrite Rsum_map_concat, !map_map. f_equal.
  apply map_ext. intros l. rewrite !map_map. reflexivity.
Qed.

Lemma global_routing_probs_const (E T : nat) (rw : tensor3) :
  (0 < T)%nat -> Forall (rect E T) rw ->
  global_routing_probs rw = repeat (/ INR T) (length rw * E).
Proof.
  intros HT H.
  unfold global_routing_probs, mean_dim1, flat_routing_probs, flatten01,
    HfModel.routing_probs.
  induction H as [|l rw [Hl Hrows] _ IH]; simpl.
  - reflexivity.
  - rewrite map_app, IH, repeat_app. f_equal.
    subst E. clear IH. induction Hrows as [|r l Hr _ IHl]; simpl.
    + reflexivity.
    + rewrite IHl. f_equal. unfold mean.
      rewrite softmax_length, Hr, softmax_sum; [unfold Rdiv; lra|].
      intros ->. simpl in Hr. lia.
Qed.

Lemma std_repeat_1 (n : nat) : (0 < n)%nat -> std (repeat 1 n) = 0.
Proof.
  intros Hn. unfold std.
  assert (Hm : mean (repeat 1 n) = 1).
  { unfold mean. rewrite Rsum_repeat, repeat_length.
    assert (0 < INR n) by now apply lt_0_INR. field. lra. }
  rewrite Hm.
  replace (Rsum (map (fun x => (x - 1) * (x - 1)) (repeat 1 n))) with 0.
  - unfold Rdiv. rewrite Rmult_0_l. apply sqrt_0.
  - rewrite map_repeat, Rsum_repeat. lra.
Qed.

End LossFacts.

(** X6: on every non-empty cache with L layers, E experts and T tokens,
    [global_entropy_loss] returns L * E * ln T / T: the softmax and the mean
    run over the same axis, so every global routing probability is 1 / T and
    the routing logits do not enter the result. *)
Theorem global_entropy_loss_value
    (c : TokenChoiceFullCache) (layers : list (string * MoELayerCache)) (E T : nat) :
  nonempty_full_cache c layers E T ->
  global_entropy_loss c = Ok (INR (length layers * E) * (ln (INR T) / INR T)).
Proof.
  intros Hc. unfold global_entropy_loss.
  rewrite (routing_weights_tensor_ok c layers E T Hc). simpl bind.
  destruct Hc as (_ & _ & Hr & _ & HT & _).
  rewrite (global_routing_probs_const E T) by assumption.
  rewrite map_repeat, Rsum_repeat. f_equal.
  unfold logits_of. rewrite length_map.
  assert (0 < INR T) by now apply lt_0_INR.
  unfold xlogx. rewrite ln_Rinv by assumption. unfold Rdiv. ring.
Qed.

Lemma global_entropy_loss_value_witness :
  global_entropy_loss u_cache = Ok (INR (length u_layers * 2) * (ln (INR 2) / INR 2)).
Proof.
  apply (global_entropy_loss_value u_cache u_layers 2 2).
  exact u_cache_nonempty.
Defined.

(** X7: on every non-empty cache with at least two (layer, expert) pairs
    the divisor of [expert_importance_loss] is 1 and the loss is 0, whatever
    the routing logits are: every expert importance is the sum of a softmax
    along the axis it was taken over. *)
Theorem expert_importance_loss_is_zero
    (c : TokenChoiceFullCache) (layers : list (string * MoELayerCache)) (E T : nat) :
  nonempty_full_cache c layers E T ->
  (2 <= length layers * E)%nat ->
  mean_expert_importance (logits_of layers) = 1 /\
  expert_importance_loss c = Ok 0.
Proof.
  intros Hc Hn.
  assert (Hmean := mean_expert_importance_with_tokens c layers E T Hc).
  split; [exact Hmean|].
  unfold expert_importance_loss.
  rewrite (routing_weights_tensor_ok c layers E T Hc). simpl bind.
  rewrite Hmean. unfold std_expert_importance.
  destruct Hc as (_ & _ & Hr & _ & HT & _).
  rewrite (flat_expert_importance_ones E T) by assumption.
  rewrite std_repeat_1.
  - f_equal. lra.
  - unfold logits_of. rewrite length_map. lia.
Qed.

Lemma expert_importance_loss_is_zero_witness :
  mean_expert_importance (logits_of lb_layers) = 1 /\
  expert_importance_loss lb_cache = Ok 0.
Proof.
  apply (expert_importance_loss_is_zero lb_cache lb_layers 2 2).
  - exact lb_cache_nonempty.
  - simpl. lia.
Defined.

(** X8: [load_balancing_aux_loss_function] does not read the logits: two
    non-empty caches with the same number of layers and experts, the same
    [P], [num_experts] and [num_tokens], and a [P] with one row per
    (layer, expert), get the same loss, whatever their routing logits. *)
Theorem load_balancing_aux_loss_function_ignores_logits
    (c c' : TokenChoiceFullCache) (layers layers' : list (string * MoELayerCache))
    (E T T' : nat) :
  nonempty_full_cache c layers E T ->
  nonempty_full_cache c' layers' E T' ->
  length layers' = length layers ->
  P c' = P c -> num_experts c' = num_experts c -> num_tokens c' = num_tokens c ->
  length (P c) = length layers -> Forall (fun pl => length pl = E) (P c) ->
  exists v : R,
    load_balancing_aux_loss_function c = Ok v /\
    load_balancing_aux_loss_function c' = Ok v.
Proof.
  intros Hc Hc' Hl HP Hne Hnt HPl HPr.
  rewrite (load_balancing_aux_loss_function_value c layers E T Hc HPl HPr).
  rewrite (load_balancing_aux_loss_function_value c' layers' E T' Hc');
    [|rewrite HP; congruence|now rewrite HP].
  rewrite HP, Hne, Hnt. eexists. split; reflexivity.
Qed.

Lemma load_balancing_aux_loss_function_ignores_logits_witness :
  exists v : R,
    load_balancing_aux_loss_function lb_cache = Ok v /\
    load_balancing_aux_loss_function u_cache = Ok v.
Proof.
  apply (load_balancing_aux_loss_function_ignores_logits
           lb_cache u_cache lb_layers u_layers 2 2 2).
  - exact lb_cache_nonempty.
  - exact u_cache_nonempty.
  - reflexivity.
  - reflexivity.
  - reflexivity.
  - reflexivity.
  - reflexivity.
  - repeat constructor.
Defined.

(** X9: adding the same constant to every routing logit leaves
    [local_entropy_loss] unchanged. *)
Theorem local_entropy_loss_shift_invariant
    (k : R) (c c' : TokenChoiceFullCache)
    (layers : list (string * MoELayerCache)) (E T : nat) :
  nonempty_full_cache c layers E T ->
  entries c' = cache_of_layers (Shift.shift_layers k layers) ->
  num_tokens c' = num_tokens c ->
  exists v : R, local_entropy_loss c = Ok v /\ local_entropy_loss c' = Ok v.
Proof.
  intros Hc He Hnt.
  pose proof (nonempty_full_cache_shift k c c' layers E T Hc He Hnt) as Hc'.
  unfold local_entropy_loss.
  rewrite (routing_weights_tensor_ok c layers E T Hc).
  rewrite (routing_weights_tensor_ok c' _ E T Hc'). simpl bind.
  eexists. split; [reflexivity|]. do 2 f_equal.
  unfold local_entropy, flat_routing_probs.
  now rewrite logits_of_shift, routing_probs_shift.
Qed.

Lemma local_entropy_loss_shift_invariant_witness :
  exists v : R,
    local_entropy_loss u_cache = Ok v /\ local_entropy_loss Shift.u_cache_shifted = Ok v.
Proof.
  apply (local_entropy_loss_shift_invariant 5 u_cache Shift.u_cache_shifted u_layers 2 2).
  - exact u_cache_nonempty.
  - reflexivity.
  - reflexivity.
Defined.

(** X10: on every non-empty cache [router_z_loss_function] returns a value
    that is never negative, and that is 0 exactly when the exponentials of
    every (layer, expert) row of logits sum to 1. *)
Theorem router_z_loss_function_zero_iff
    (c : TokenChoiceFullCache) (layers : list (string * MoELayerCache)) (E T : nat) :
  nonempty_full_cache c layers E T ->
  exists z : R,
    router_z_loss_function c = Ok z /\ 0 <= z /\
    (z = 0 <-> Forall (fun row => Rsum (map exp row) = 1) (flatten01 (logits_of layers))).
Proof.
  intros Hc. rewrite (router_z_loss_function_on_rows c layers E T Hc).
  eexists. split; [reflexivity|].
  destruct Hc as (_ & _ & Hr & _ & HT & Hn).
  assert (Hnt : 0 < INR (num_tokens c)) by now apply lt_0_INR.
  set (rows := flatten01 (logits_of layers)).
  assert (Hsq : forall row, In row rows -> 0 <= logsumexp row ^ 2).
  { intros row _. apply pow2_ge_0. }
  assert (HS : 0 <= Rsum (map (fun row => logsumexp row ^ 2) rows))
    by now apply Rsum_map_nonneg.
  split.
  - apply Rmult_le_pos; [assumption|]. left. now apply Rinv_0_lt_compat.
  - transitivity (Rsum (map (fun row => logsumexp row ^ 2) rows) = 0).
    + split; intros H.
      * apply (Rmult_eq_compat_r (INR (num_tokens c))) in H.
        unfold Rdiv in H. rewrite Rmult_assoc, Rinv_l in H by lra. lra.
      * rewrite H. unfold Rdiv. lra.
    + rewrite (Rsum_nonneg_zero _ rows Hsq).
      pose proof (flat_logits_rows E T _ Hr) as Hrows. fold rows in Hrows.
      rewrite !Forall_forall. split; intros H row Hin.
      * specialize (H row Hin).
        assert (Hpos : 0 < Rsum (map exp row)).
        { apply Rsum_exp_pos. intros ->. rewrite Forall_forall in Hrows.
          specialize (Hrows [] Hin). simpl in Hrows. lia. }
        assert (Hln : ln (Rsum (map exp row)) = 0).
        { unfold logsumexp in H. nra. }
        apply ln_inv; [assumption|lra|]. now rewrite ln_1.
      * unfold logsumexp. rewrite (H row Hin), ln_1. lra.
Qed.

Lemma router_z_loss_function_zero_iff_witness :
  exists z : R,
    router_z_loss_function z_cache = Ok z /\ 0 <= z /\
    (z = 0 <-> Forall (fun row => Rsum (map exp row) = 1) (flatten01 (logits_of z_layers))).
Proof.
  apply (router_z_loss_function_zero_iff z_cache z_layers 2 2).
  exact z_cache_nonempty.
Defined.

(** X11: adding the constant [k] to every routing logit adds [k] to every
    logsumexp that [router_z_loss_function] squares: the z loss, unlike the
    losses built on softmax, sees the shift. *)
Theorem router_z_loss_function_shift
    (k : R) (c c' : TokenChoiceFullCache)
    (layers : list (string * MoELayerCache)) (E T : nat) :
  nonempty_full_cache c layers E T ->
  entries c' = cache_of_layers (Shift.shift_layers k layers) ->
  num_tokens c' = num_tokens c ->
  router_z_loss_function c' =
  Ok (Rsum (map (fun row => (logsumexp row + k) ^ 2) (flatten01 (logits_of layers)))
      / INR (num_tokens c)).
Proof.
  intros Hc He Hnt.
  pose proof (nonempty_full_cache_shift k c c' layers E T Hc He Hnt) as Hc'.
  rewrite (router_z_loss_function_on_rows c' _ E T Hc'), Hnt. do 2 f_equal.
  rewrite logits_of_shift. unfold flatten01.
  destruct Hc as (_ & _ & Hr & _ & HT & _).
  pose proof (flat_logits_rows E T _ Hr) as Hrows. unfold flatten01 in Hrows.
  rewrite <- concat_map, map_map.
  f_equal. apply map_ext_in. intros row Hin. f_equal.
  apply logsumexp_shift. intros ->.
  rewrite Forall_forall in Hrows. specialize (Hrows [] Hin). simpl in Hrows. lia.
Qed.

Lemma router_z_loss_function_shift_witness :
  router_z_loss_function Shift.u_cache_shifted =
  Ok (Rsum (map (fun row => (logsumexp row + 5) ^ 2) (flatten01 (logits_of u_layers)))
      / INR (num_tokens u_cache)).
Proof.
  apply (router_z_loss_function_shift 5 u_cache Shift.u_cache_shifted u_layers 2 2).
  - exact u_cache_nonempty.
  - reflexivity.
  - reflexivity.
Defined.

(* ================================================================== *)
(** * Experts: errors, shapes and the merged expert *)

Section ExpertFacts.

Lemma rect_tab2 (a b : nat) (f : nat -> nat -> R) : rect a b (tab2 a b f).
Proof.
  unfold rect, tab2. split.
  - now rewrite length_map, length_seq.
  - apply Forall_map, Forall_forall. intros i _. apply tab1_length.
Qed.

Lemma transpose_involutive (a b : nat) (t : mat) :
  rect a b t -> (0 < a)%nat -> (0 < b)%nat -> transpose (transpose t) = t.
Proof.
  intros Ht Ha Hb. rewrite (mat_tab2 a b t Ht) at 2.
  rewrite (mat_tab2 a b t Ht) at 1.
  now rewrite !transpose_tab2.
Qed.

Lemma linear_wrong_size (w : mat) (b x : vec) (r n : nat) :
  rect r n w -> (0 < r)%nat -> length x <> n -> linear w b x = Raise RuntimeError.
Proof.
  intros [Hl Hr] Hpos Hx. unfold linear.
  destruct w as [|row w]; [simpl in Hl; lia|].
  inversion Hr as [|? ? Hrow _]; subst. simpl.
  destruct (Nat.eqb_spec (length row) (length x)) as [Heq|_]; [congruence|].
  reflexivity.
Qed.

End ExpertFacts.





(** X15: an expert whose up-projection maps [h] features to [up] >= 1 and
    whose down-projection maps back returns an output of [h] features on an
    input of [h] features, and raises a runtime error on an input of any
    other size. *)
Theorem Expert_forward_size
    (act_fn : R -> R) (dropout : vec -> vec) (e : Expert) (x : vec) (up h : nat) :
  (forall v, length (dropout v) = length v) ->
  expert_of_shape up h up h up h e -> (0 < up)%nat ->
  (length x = h ->
   exists y, Expert_forward act_fn dropout e x = Ok y /\ length y = h) /\
  (length x <> h -> Expert_forward act_fn dropout e x = Raise RuntimeError).
Proof.
  intros Hd Hshape Hup. split.
  - intros Hx. now apply (Expert_forward_ok act_fn dropout Hd e x up h).
  - intros Hx. destruct Hshape as (Huw & _).
    unfold Expert_forward.
    now rewrite (linear_wrong_size _ _ x up h Huw Hup Hx).
Qed.

Lemma Expert_forward_size_witness :
  (length [1; 1] = 2%nat ->
   exists y, Expert_forward relu no_dropout m_expert [1; 1] = Ok y /\ length y = 2%nat) /\
  (length [1; 1] <> 2%nat ->
   Expert_forward relu no_dropout m_expert [1; 1] = Raise RuntimeError).
Proof.
  apply (Expert_forward_size relu no_dropout m_expert [1; 1] 1 2).
  - reflexivity.
  - repeat constructor.
  - lia.
Defined.

Section MergeLinear.

Lemma Rsum_map_plus {A : Type} (f g : A -> R) (l : list A) :
  Rsum (map (fun a => f a + g a) l) = Rsum (map f l) + Rsum (map g l).
Proof.
  induction l as [|a l IH]; simpl; [lra|]. rewrite IH. lra.
Qed.

Lemma Rsum_map_mult_l {A : Type} (f : A -> R) (k : R) (l : list A) :
  Rsum (map (fun a => k * f a) l) = k * Rsum (map f l).
Proof.
  induction l as [|a l IH]; simpl; [lra|]. rewrite IH. lra.
Qed.

Lemma Rsum_map_mult_r {A : Type} (f : A -> R) (k : R) (l : list A) :
  Rsum (map (fun a => f a * k) l) = Rsum (map f l) * k.
Proof.
  induction l as [|a l IH]; simpl; [lra|]. rewrite IH. lra.
Qed.

Lemma Rsum_exchange {A B : Type} (F : A -> B -> R) (la : list A) (lb : list B) :
  Rsum (map (fun a => Rsum (map (fun b => F a b) lb)) la) =
  Rsum (map (fun b => Rsum (map (fun a => F a b) la)) lb).
Proof.
  induction la as [|a la IH]; simpl.
  - induction lb as [|b lb IHb]; simpl; [reflexivity|]. rewrite <- IHb. lra.
  - rewrite IH, <- Rsum_map_plus. reflexivity.
Qed.

Lemma map_combine_tab {A B C : Type} (g : A * B -> C) (d1 : A) (d2 : B) :
  forall (l1 : list A) (l2 : list B) (n : nat),
    length l1 = n -> length l2 = n ->
    map g (combine l1 l2) = map (fun i => g (nth i l1 d1, nth i l2 d2)) (seq 0 n).
Proof.
  induction l1 as [|x l1 IH]; intros [|y l2] [|n] H1 H2; simpl in *; try discriminate.
  - reflexivity.
  - f_equal. rewrite <- seq_shift, map_map. apply IH; lia.
Qed.

Lemma Rsum_vmul_tab (row x : vec) (n : nat) :
  length row = n -> length x = n ->
  Rsum (vmul row x) = Rsum (map (fun j => at1 row j * at1 x j) (seq 0 n)).
Proof.
  intros Hr Hx. unfold vmul, at1.
  now rewrite (map_combine_tab (fun p => fst p * snd p) 0 0 row x n).
Qed.

(** [linear] on operands that fit, entry by entry. *)
Lemma linear_tab (w : mat) (b x : vec) (r n : nat) :
  rect r n w -> length b = r -> length x = n ->
  linear w b x =
  Ok (tab1 r (fun i => Rsum (map (fun j => at2 w i j * at1 x j) (seq 0 n)) + at1 b i)).
Proof.
  intros Hw Hb Hx. destruct (linear_ok w b x r n Hw Hb Hx) as [y [Hy _]].
  unfold linear in *.
  destruct (forallb (fun row => Nat.eqb (length row) (length x)) w
            && Nat.eqb (length b) (length w))%bool; [|discriminate].
  f_equal. destruct Hw as [Hl Hr].
  rewrite (map_combine_tab _ [] 0 w b r) by assumption.
  apply map_ext_in. intros i Hi. apply in_seq in Hi. cbn [fst snd].
  f_equal. apply Rsum_vmul_tab; [|assumption].
  rewrite Forall_forall in Hr. apply Hr, nth_In.
  destruct Hi as [_ Hi]. simpl in Hi. rewrite <- Hl in Hi. exact Hi.
Qed.

Lemma at2_tab2 (a b : nat) (f : nat -> nat -> R) (i j : nat) :
  (i < a)%nat -> (j < b)%nat -> at2 (tab2 a b f) i j = f i j.
Proof.
  intros Hi Hj. unfold at2, tab2.
  rewrite (nth_map_default _ _ i 0%nat) by now rewrite length_seq.
  rewrite seq_nth by assumption. now apply tab1_nth.
Qed.

Lemma at1_tab1 (n : nat) (f : nat -> R) (i : nat) :
  (i < n)%nat -> at1 (tab1 n f) i = f i.
Proof. apply tab1_nth. Qed.

Lemma at2_map_tab1 (k r : nat) (h : nat -> nat -> R) (e i : nat) :
  (e < k)%nat -> (i < r)%nat ->
  at2 (map (fun e0 => tab1 r (h e0)) (seq 0 k)) e i = h e i.
Proof.
  intros He Hi. unfold at2.
  rewrite (nth_map_default _ _ e 0%nat) by now rewrite length_seq.
  rewrite seq_nth by assumption. now apply tab1_nth.
Qed.

(** The rows that every expert's layer returns on [x], by expert index. *)
Lemma mapM_linear_tab (ws : list mat) (bs : list vec) (x : vec) (r n : nat) :
  length bs = length ws ->
  Forall (rect r n) ws -> Forall (fun b => length b = r) bs -> length x = n ->
  mapM (fun wb => linear (fst wb) (snd wb) x) (combine ws bs) =
  Ok (map (fun e => tab1 r (fun i =>
             Rsum (map (fun j => at3 ws e i j * at1 x j) (seq 0 n)) + at2 bs e i))
          (seq 0 (length ws))).
Proof.
  revert bs. induction ws as [|w ws IH]; intros [|b bs] Hlen Hws Hbs Hx;
    simpl in Hlen; try discriminate; [reflexivity|].
  apply Forall_cons_iff in Hws. destruct Hws as [Hw Hws'].
  apply Forall_cons_iff in Hbs. destruct Hbs as [Hb Hbs'].
  cbn [combine mapM fst snd length]. rewrite (linear_tab w b x r n) by assumption.
  simpl bind. rewrite (IH bs) by (try assumption; lia). simpl bind.
  f_equal. cbn [seq map]. f_equal.
  rewrite <- seq_shift, map_map. reflexivity.
Qed.

Lemma linear_weighted_sum (ws : list mat) (bs : list vec) (m x : vec) (r n : nat) :
  ws <> [] -> length m = length ws -> length bs = length ws ->
  Forall (rect r n) ws -> Forall (fun b => length b = r) bs -> length x = n ->
  exists ys : list vec,
    mapM (fun wb => linear (fst wb) (snd wb) x) (combine ws bs) = Ok ys /\
    linear (weighted_sum_mat m ws) (weighted_sum_vec m bs) x = Ok (weighted_sum_vec m ys).
Proof.
  intros Hne Hm Hbl Hws Hbs Hx.
  eexists. split; [now apply (mapM_linear_tab ws bs x r n)|].
  assert (Hbne : bs <> []) by (destruct bs, ws; simpl in *; congruence).
  rewrite (weighted_sum_mat_tab r n) by assumption.
  rewrite (weighted_sum_vec_tab r bs) by (try assumption; congruence).
  rewrite (linear_tab _ _ x r n) by (try apply rect_tab2; try apply tab1_length; assumption).
  f_equal.
  rewrite (weighted_sum_vec_tab r).
  - rewrite length_map, length_seq. apply tab1_ext. intros i Hi.
    rewrite at1_tab1 by assumption.
    rewrite (Rsum_map_ext_seq _
               (fun j => Rsum (map (fun e => at1 m e * at3 ws e i j * at1 x j)
                                   (seq 0 (length ws))))).
    2:{ intros j Hj. rewrite at2_tab2 by assumption.
        rewrite <- Rsum_map_mult_r. reflexivity. }
    rewrite Rsum_exchange, Hbl, <- Rsum_map_plus.
    apply Rsum_map_ext_seq. intros e He.
    rewrite at2_map_tab1 by assumption.
    rewrite Rmult_plus_distr_l, <- Rsum_map_mult_l. f_equal.
    f_equal. apply map_ext. intros j. ring.
  - intros H. apply (f_equal (@length _)) in H.
    rewrite length_map, length_seq in H. destruct ws; [congruence|discriminate].
  - now rewrite length_map, length_seq.
  - apply Forall_map, Forall_forall. intros e _. apply tab1_length.
Qed.

End MergeLinear.

Lemma mapM_map {A B C : Type} (f : B -> result C) (g : A -> B) (l : list A) :
  mapM f (map g l) = mapM (fun a => f (g a)) l.
Proof.
  induction l as [|a l IH]; simpl; [reflexivity|]. now rewrite IH.
Qed.

Lemma merged_layer_is_weighted_sum
    (experts : ExpertList) (w : Expert -> mat) (b : Expert -> vec)
    (m x : vec) (r n : nat) :
  experts <> [] -> length m = length experts -> (0 < r)%nat -> (0 < n)%nat ->
  Forall (fun e => rect r n (w e) /\ length (b e) = r) experts -> length x = n ->
  exists ys : list vec,
    mapM (fun e => linear (w e) (b e) x) experts = Ok ys /\
    linear (transpose (transpose (weighted_sum_mat m (map w experts))))
           (weighted_sum_vec m (map b experts)) x
    = Ok (weighted_sum_vec m ys).
Proof.
  intros Hne Hm Hr Hn Hall Hx.
  assert (Hws : Forall (rect r n) (map w experts)).
  { apply Forall_map. eapply Forall_impl; [|exact Hall]. intros e He. apply He. }
  assert (Hbs : Forall (fun v => length v = r) (map b experts)).
  { apply Forall_map. eapply Forall_impl; [|exact Hall]. intros e He. apply He. }
  assert (Hwne : map w experts <> []) by (destruct experts; [congruence|discriminate]).
  destruct (linear_weighted_sum (map w experts) (map b experts) m x r n)
    as [ys [Hys Hlin]]; try assumption; try (now rewrite !length_map).
  exists ys. split.
  - rewrite combine_map_same, mapM_map in Hys. exact Hys.
  - rewrite (transpose_involutive r n); try assumption.
    rewrite (weighted_sum_mat_tab r n) by (try assumption; now rewrite length_map).
    apply rect_tab2.
Qed.

(** X14: merging commutes with the linear layers.  For experts of common
    shapes and any merging vector with one entry per expert, the
    up-projection that [ExpertFromWeights.forward] applies (the merged
    weight, transposed back, and the merged bias) returns on every input the
    weighted sum of what the experts' own up-projections return, and so does
    the down-projection. *)
Theorem merged_projections_are_weighted_sums
    (experts : ExpertList) (m x u : vec) (up h : nat) :
  experts <> [] -> length m = length experts -> (0 < up)%nat -> (0 < h)%nat ->
  Forall (expert_of_shape up h up h up h) experts ->
  length x = h -> length u = up ->
  exists (params : ExpertLinearParams) (ys zs : list vec),
    merge_weights_and_biases experts m = Ok params /\
    mapM (fun e => linear (up_expert_weight e) (up_expert_bias e) x) experts = Ok ys /\
    linear (transpose (p_up_expert_weight params)) (p_up_expert_bias params) x
    = Ok (weighted_sum_vec m ys) /\
    mapM (fun e => linear (down_expert_weight e) (down_expert_bias e) u) experts = Ok zs /\
    linear (transpose (p_down_expert_weight params)) (p_down_expert_bias params) u
    = Ok (weighted_sum_vec m zs).
Proof.
  intros Hne Hm Hup Hh Hall Hx Hu.
  destruct (merged_layer_is_weighted_sum experts up_expert_weight up_expert_bias
              m x up h) as [ys [Hys Hlin_up]]; try assumption.
  { eapply Forall_impl; [|exact Hall]. intros e He. split; apply He. }
  destruct (merged_layer_is_weighted_sum experts down_expert_weight down_expert_bias
              m u h up) as [zs [Hzs Hlin_down]]; try assumption.
  { eapply Forall_impl; [|exact Hall]. intros e He. split; apply He. }
  eexists. exists ys, zs. split.
  - now apply (merge_weights_and_biases_value experts m up h up h up h).
  - simpl. repeat split; assumption.
Qed.

Lemma merged_projections_are_weighted_sums_witness :
  exists (params : ExpertLinearParams) (ys zs : list vec),
    merge_weights_and_biases [m_expert; m_expert'] [/ 4; 3 / 4] = Ok params /\
    mapM (fun e => linear (up_expert_weight e) (up_expert_bias e) [1; 1])
         [m_expert; m_expert'] = Ok ys /\
    linear (transpose (p_up_expert_weight params)) (p_up_expert_bias params) [1; 1]
    = Ok (weighted_sum_vec [/ 4; 3 / 4] ys) /\
    mapM (fun e => linear (down_expert_weight e) (down_expert_bias e) [1])
         [m_expert; m_expert'] = Ok zs /\
    linear (transpose (p_down_expert_weight params)) (p_down_expert_bias params) [1]
    = Ok (weighted_sum_vec [/ 4; 3 / 4] zs).
Proof.
  apply (merged_projections_are_weighted_sums [m_expert; m_expert'] [/ 4; 3 / 4]
           [1; 1] [1] 1 2).
  - discriminate.
  - reflexivity.
  - lia.
  - lia.
  - exact m_experts_shape.
  - reflexivity.
  - reflexivity.
Defined.

(* ================================================================== *)
(** * The dataset: blocks, what is dropped, and indices out of range *)

Section DatasetFacts.

Import Train.

Lemma firstn_add {A : Type} (a b : nat) (l : list A) :
  firstn (a + b) l = firstn a l ++ firstn b (skipn a l).
Proof.
  revert l. induction a as [|a IH]; intros l; simpl.
  - reflexivity.
  - destruct l as [|x l]; simpl.
    + now rewrite firstn_nil.
    + now rewrite IH.
Qed.

Lemma len_bounds (self : ShakespeareDataset) (k : Z) :
  (0 < block_size self)%Z -> __len__ self = Returns k ->
  (0 <= k /\ k * block_size self <= Z.of_nat (length (data self)))%Z.
Proof.
  intros Hbs. unfold __len__.
  destruct (Z.eqb_spec (block_size self) 0) as [H0|_]; [lia|].
  intros H. inversion H; subst. split.
  - apply Z.div_pos; lia.
  - rewrite Z.mul_comm. apply Z.mul_div_le. assumption.
Qed.

Lemma getitem_in_range (self : ShakespeareDataset) (idx : Z) :
  (0 < block_size self)%Z -> (0 <= idx)%Z ->
  ((idx + 1) * block_size self <= Z.of_nat (length (data self)))%Z ->
  __getitem__ self idx =
  firstn (Z.to_nat (block_size self)) (skipn (Z.to_nat (idx * block_size self)) (data self)).
Proof.
  intros Hbs Hidx Hle. unfold __getitem__, slice, slice_index.
  set (n := Z.of_nat (length (data self))) in *.
  set (bs := block_size self) in *.
  assert (0 <= idx * bs)%Z by nia.
  destruct (Z.ltb_spec (idx * bs) 0); [lia|].
  destruct (Z.ltb_spec ((idx + 1) * bs) 0); [nia|].
  rewrite !Z.min_l by nia. f_equal. f_equal. nia.
Qed.

End DatasetFacts.

(** X16: with a positive block size, every index below [__len__] gets a
    block of exactly [block_size] tokens, the tokens of the data from
    position [idx * block_size] on. *)
Theorem getitem_block (self : Train.ShakespeareDataset) (k idx : Z) :
  (0 < Train.block_size self)%Z ->
  Train.__len__ self = Train.Returns k ->
  (0 <= idx < k)%Z ->
  Train.__getitem__ self idx =
    firstn (Z.to_nat (Train.block_size self))
           (skipn (Z.to_nat (idx * Train.block_size self)) (Train.data self)) /\
  Z.of_nat (length (Train.__getitem__ self idx)) = Train.block_size self.
Proof.
  intros Hbs Hlen Hidx.
  destruct (len_bounds self k Hbs Hlen) as [Hk Hkn].
  assert (Hle : ((idx + 1) * Train.block_size self
                 <= Z.of_nat (length (Train.data self)))%Z) by nia.
  rewrite (getitem_in_range self idx Hbs) by (try assumption; lia).
  split; [reflexivity|].
  rewrite length_firstn, length_skipn. nia.
Qed.

Lemma getitem_block_witness :
  Train.__getitem__ Train.seven 1 =
    firstn (Z.to_nat (Train.block_size Train.seven))
           (skipn (Z.to_nat (1 * Train.block_size Train.seven)) (Train.data Train.seven)) /\
  Z.of_nat (length (Train.__getitem__ Train.seven 1)) = Train.block_size Train.seven.
Proof.
  apply (getitem_block Train.seven 2 1).
  - reflexivity.
  - reflexivity.
  - lia.
Defined.

(** X17: with a positive block size, the items [0 .. __len__ - 1] laid end to
    end are the first [__len__ * block_size] tokens of the data: the blocks
    do not overlap, keep the order, and the last
    [len(data) mod block_size] tokens are in no item. *)
Theorem items_partition_prefix (self : Train.ShakespeareDataset) (k : Z) :
  (0 < Train.block_size self)%Z ->
  Train.__len__ self = Train.Returns k ->
  concat (Train.items self (Z.to_nat k)) =
    firstn (Z.to_nat (k * Train.block_size self)) (Train.data self) /\
  (Z.of_nat (length (Train.data self)) - k * Train.block_size self
   = Z.of_nat (length (Train.data self)) mod Train.block_size self)%Z.
Proof.
  intros Hbs Hlen.
  destruct (len_bounds self k Hbs Hlen) as [Hk Hkn]. split.
  - assert (Hj : forall j : nat, (Z.of_nat j <= k)%Z ->
              concat (Train.items self j) =
              firstn (Z.to_nat (Z.of_nat j * Train.block_size self)) (Train.data self)).
    { induction j as [|j IH]; intros Hjk.
      - reflexivity.
      - unfold Train.items in *. rewrite seq_S, map_app, concat_app, IH by lia.
        cbn [map concat Nat.add]. rewrite app_nil_r.
        rewrite (getitem_in_range self (Z.of_nat j) Hbs) by nia.
        rewrite <- firstn_add. f_equal.
        rewrite <- Z2Nat.inj_add by nia. f_equal. lia. }
    rewrite Hj by lia. now rewrite Z2Nat.id by assumption.
  - unfold Train.__len__ in Hlen.
    destruct (Z.eqb_spec (Train.block_size self) 0) as [H0|Hn0]; [lia|].
    inversion Hlen; subst.
    rewrite Z.mod_eq by assumption. lia.
Qed.

Lemma items_partition_prefix_witness :
  concat (Train.items Train.seven (Z.to_nat 2)) =
    firstn (Z.to_nat (2 * Train.block_size Train.seven)) (Train.data Train.seven) /\
  (Z.of_nat (length (Train.data Train.seven)) - 2 * Train.block_size Train.seven
   = Z.of_nat (length (Train.data Train.seven)) mod Train.block_size Train.seven)%Z.
Proof.
  apply (items_partition_prefix Train.seven 2).
  - reflexivity.
  - reflexivity.
Defined.

(** X18: [__getitem__] never raises on an index out of range.  With a
    positive block size, an index at or past [__len__] gets fewer than
    [block_size] tokens (possibly none), and the index -1 gets the empty
    tensor, not the last block. *)
Theorem getitem_out_of_range (self : Train.ShakespeareDataset) (k idx : Z) :
  (0 < Train.block_size self)%Z ->
  Train.__len__ self = Train.Returns k ->
  ((k <= idx)%Z ->
   (Z.of_nat (length (Train.__getitem__ self idx)) < Train.block_size self)%Z) /\
  Train.__getitem__ self (-1) = [].
Proof.
  intros Hbs Hlen.
  destruct (len_bounds self k Hbs Hlen) as [Hk Hkn].
  assert (Hrem : (Z.of_nat (length (Train.data self)) < (k + 1) * Train.block_size self)%Z).
  { unfold Train.__len__ in Hlen.
    destruct (Z.eqb_spec (Train.block_size self) 0) as [H0|Hn0]; [lia|].
    inversion Hlen; subst.
    pose proof (Z.mod_pos_bound (Z.of_nat (length (Train.data self)))
                  (Train.block_size self) Hbs).
    pose proof (Z.div_mod (Z.of_nat (length (Train.data self)))
                  (Train.block_size self) Hn0). nia. }
  split.
  - intros Hidx. unfold Train.__getitem__, Train.slice, Train.slice_index.
    set (n := Z.of_nat (length (Train.data self))) in *.
    set (bs := Train.block_size self) in *.
    destruct (Z.ltb_spec (idx * bs) 0); [nia|].
    destruct (Z.ltb_spec ((idx + 1) * bs) 0); [nia|].
    rewrite length_firstn, length_skipn.
    assert (Hend : (n < idx * bs + bs)%Z) by nia.
    replace ((idx + 1) * bs)%Z with (idx * bs + bs)%Z by ring.
    remember (idx * bs)%Z as p eqn:Hp. clear Hp.
    unfold n in *. lia.
  - unfold Train.__getitem__, Train.slice, Train.slice_index.
    set (n := Z.of_nat (length (Train.data self))) in *.
    set (bs := Train.block_size self) in *.
    replace ((-1 + 1) * bs)%Z with 0%Z by lia.
    destruct (Z.ltb_spec (-1 * bs) 0); [|lia].
    change (0 <? 0)%Z with false. cbv iota.
    replace (Z.to_nat (Z.min 0 n - Z.max 0 (-1 * bs + n))) with 0%nat by lia.
    reflexivity.
Qed.

Lemma getitem_out_of_range_witness :
  ((2 <= 2)%Z ->
   (Z.of_nat (length (Train.__getitem__ Train.seven 2)) < Train.block_size Train.seven)%Z) /\
  Train.__getitem__ Train.seven (-1) = [].
Proof.
  apply (getitem_out_of_range Train.seven 2 2).
  - reflexivity.
  - reflexivity.
Defined.

(* ================================================================== *)
(** * BatchNorm2d: what the normalisation guarantees *)

Section NormFacts.

Import Norms.

Lemma Rsum_map_const {A : Type} (k : R) (l : list A) :
  Rsum (map (fun _ => k) l) = INR (length l) * k.
Proof.
  induction l as [|a l IH].
  - simpl. lra.
  - cbn [map Rsum fold_right length]. fold (Rsum (map (fun _ : A => k) l)).
    rewrite IH, S_INR. lra.
Qed.

Lemma sum3_affine (b h w : nat) (f : nat -> nat -> nat -> R) (a k : R) :
  sum3 b h w (fun i j l => a * f i j l + k) =
  a * sum3 b h w f + INR (b * h * w) * k.
Proof.
  unfold sum3.
  assert (Hw : forall i j,
             Rsum (map (fun l => a * f i j l + k) (seq 0 w)) =
             a * Rsum (map (fun l => f i j l) (seq 0 w)) + INR w * k).
  { intros i j.
    rewrite (Rsum_map_plus (fun l => a * f i j l) (fun _ => k)).
    now rewrite Rsum_map_mult_l, Rsum_map_const, length_seq. }
  assert (Hh : forall i,
             Rsum (map (fun j => Rsum (map (fun l => a * f i j l + k) (seq 0 w))) (seq 0 h)) =
             a * Rsum (map (fun j => Rsum (map (fun l => f i j l) (seq 0 w))) (seq 0 h))
             + INR (h * w) * k).
  { intros i. rewrite (map_ext _ _ (Hw i)).
    rewrite (Rsum_map_plus (fun j => a * Rsum (map (fun l => f i j l) (seq 0 w)))
                           (fun _ => INR w * k)).
    rewrite Rsum_map_mult_l, Rsum_map_const, length_seq, mult_INR. ring. }
  rewrite (map_ext _ _ Hh).
  rewrite (Rsum_map_plus
             (fun i => a * Rsum (map (fun j => Rsum (map (fun l => f i j l) (seq 0 w)))
                                     (seq 0 h)))
             (fun _ => INR (h * w) * k)).
  rewrite Rsum_map_mult_l, Rsum_map_const, length_seq.
  rewrite <- Nat.mul_assoc, (mult_INR b). ring.
Qed.

Lemma sum3_ext (b h w : nat) (f g : nat -> nat -> nat -> R) :
  (forall i j l, f i j l = g i j l) -> sum3 b h w f = sum3 b h w g.
Proof.
  intros H. unfold sum3. f_equal. apply map_ext. intros i.
  f_equal. apply map_ext. intros j. f_equal. apply map_ext. intros l. apply H.
Qed.

Lemma forward_training (self : BatchNorm2d) (x : tensor4d) :
  training self = true -> chans x = num_features self ->
  exists self' : BatchNorm2d,
    forward self x =
    Ok (mkTensor4d (batch x) (chans x) (height x) (width x)
          (fun i c j l =>
             (at4 x i c j l - at1 (tab1 (chans x) (channel_mean x)) c)
             / (sqrt (at1 (tab1 (chans x) (channel_var x)) c) + eps self)
             * at1 (weight self) c + at1 (bias self) c),
        self').
Proof.
  intros Ht Hc. unfold forward. rewrite Hc, Nat.eqb_refl, Ht. simpl negb. cbv iota.
  eexists. reflexivity.
Qed.

End NormFacts.

(** X19: in training mode, on a batch with at least one entry per channel,
    [BatchNorm2d.forward] returns an output of the input's shape whose mean
    over each channel is that channel's bias and whose (biased) variance over
    each channel is the input's variance v times
    (weight / (sqrt v + eps))^2: the eps is added to the standard deviation,
    outside the square root. *)
Theorem batch_norm_training_statistics
    (self : Norms.BatchNorm2d) (x : Norms.tensor4d) (c : nat) :
  Norms.training self = true ->
  Norms.chans x = Norms.num_features self ->
  (0 < Norms.per_channel x)%nat -> 0 < Norms.eps self -> (c < Norms.chans x)%nat ->
  exists (out : Norms.tensor4d) (self' : Norms.BatchNorm2d),
    Norms.forward self x = Ok (out, self') /\
    (Norms.batch out, Norms.chans out, Norms.height out, Norms.width out)
    = (Norms.batch x, Norms.chans x, Norms.height x, Norms.width x) /\
    Norms.channel_mean out c = at1 (Norms.bias self) c /\
    Norms.channel_var out c =
      (at1 (Norms.weight self) c / (sqrt (Norms.channel_var x c) + Norms.eps self)) ^ 2
      * Norms.channel_var x c.
Proof.
  intros Ht Hc Hn Heps Hlt. unfold Norms.per_channel in Hn.
  destruct (forward_training self x Ht Hc) as [self' Hf].
  eexists. exists self'. split; [exact Hf|]. split; [reflexivity|].
  set (mu := Norms.channel_mean x c).
  set (v := Norms.channel_var x c).
  set (wt := at1 (Norms.weight self) c).
  set (bs := at1 (Norms.bias self) c).
  assert (HN : 0 < INR (Norms.batch x * Norms.height x * Norms.width x))
    by now apply lt_0_INR.
  assert (Hd : 0 < sqrt v + Norms.eps self).
  { pose proof (sqrt_pos v). lra. }
  set (d := sqrt v + Norms.eps self) in *.
  assert (Hmean :
            Norms.channel_mean
              (Norms.mkTensor4d (Norms.batch x) (Norms.chans x) (Norms.height x)
                 (Norms.width x)
                 (fun i c0 j l =>
                    (Norms.at4 x i c0 j l
                     - at1 (tab1 (Norms.chans x) (Norms.channel_mean x)) c0)
                    / (sqrt (at1 (tab1 (Norms.chans x) (Norms.channel_var x)) c0)
                       + Norms.eps self)
                    * at1 (Norms.weight self) c0 + at1 (Norms.bias self) c0)) c = bs).
  { unfold Norms.channel_mean at 1. unfold Norms.per_channel.
    cbn [Norms.batch Norms.height Norms.width Norms.at4].
    rewrite !at1_tab1 by assumption. fold mu v wt bs d.
    rewrite (sum3_ext _ _ _ _
               (fun i j l => wt / d * Norms.at4 x i c j l + (bs - wt / d * mu)))
      by (intros; field; lra).
    rewrite sum3_affine.
    assert (Hsum : Norms.sum3 (Norms.batch x) (Norms.height x) (Norms.width x)
                     (fun i j l => Norms.at4 x i c j l)
                   = INR (Norms.batch x * Norms.height x * Norms.width x) * mu).
    { unfold mu, Norms.channel_mean, Norms.per_channel. field. lra. }
    rewrite Hsum. field. lra. }
  split; [exact Hmean|].
  unfold Norms.channel_var at 1. rewrite Hmean. unfold Norms.per_channel.
  cbn [Norms.batch Norms.height Norms.width Norms.at4].
  rewrite !at1_tab1 by assumption. fold mu v wt bs d.
  rewrite (sum3_ext _ _ _ _
             (fun i j l => (wt / d) ^ 2
                           * ((Norms.at4 x i c j l - mu) * (Norms.at4 x i c j l - mu)) + 0))
    by (intros; field; lra).
  rewrite sum3_affine.
  unfold v, Norms.channel_var, Norms.per_channel. fold mu. field. lra.
Qed.

Lemma batch_norm_training_statistics_witness :
  exists (out : Norms.tensor4d) (self' : Norms.BatchNorm2d),
    Norms.forward Norms.bn2 Norms.x_1_2_1_2 = Ok (out, self') /\
    (Norms.batch out, Norms.chans out, Norms.height out, Norms.width out)
    = (Norms.batch Norms.x_1_2_1_2, Norms.chans Norms.x_1_2_1_2,
       Norms.height Norms.x_1_2_1_2, Norms.width Norms.x_1_2_1_2) /\
    Norms.channel_mean out 1 = at1 (Norms.bias Norms.bn2) 1 /\
    Norms.channel_var out 1 =
      (at1 (Norms.weight Norms.bn2) 1
       / (sqrt (Norms.channel_var Norms.x_1_2_1_2 1) + Norms.eps Norms.bn2)) ^ 2
      * Norms.channel_var Norms.x_1_2_1_2 1.
Proof.
  apply (batch_norm_training_statistics Norms.bn2 Norms.x_1_2_1_2 1).
  - reflexivity.
  - reflexivity.
  - unfold Norms.per_channel. simpl. lia.
  - cbn [Norms.bn2 Norms.eps]. apply Rinv_0_lt_compat. lra.
  - simpl. lia.
Defined.

(** X20: a newly constructed module put in evaluation mode returns every
    entry of its input divided by 1 + eps (its running mean is 0, its
    running variance 1, its affine map the identity) and is not changed by
    the call. *)
Theorem batch_norm_fresh_eval (n : nat) (eps momentum : R) (x : Norms.tensor4d) :
  Norms.chans x = n ->
  exists out : Norms.tensor4d,
    Norms.forward (Norms.eval (Norms.__init__ n eps momentum)) x
    = Ok (out, Norms.eval (Norms.__init__ n eps momentum)) /\
    (Norms.batch out, Norms.chans out, Norms.height out, Norms.width out)
    = (Norms.batch x, Norms.chans x, Norms.height x, Norms.width x) /\
    forall i c j l : nat, (c < n)%nat ->
      Norms.at4 out i c j l = Norms.at4 x i c j l / (1 + eps).
Proof.
  intros Hc. unfold Norms.forward, Norms.eval, Norms.__init__.
  cbn [Norms.num_features Norms.training Norms.eps Norms.weight Norms.bias
       Norms.running_mean Norms.running_var Norms.momentum Norms.num_batches_tracked].
  rewrite Hc, Nat.eqb_refl. simpl negb. cbv iota.
  eexists. split; [reflexivity|]. split; [reflexivity|].
  intros i c j l Hlt. cbn [Norms.at4]. unfold at1.
  rewrite !nth_repeat_lt by assumption. rewrite sqrt_1. unfold Rdiv. ring.
Qed.

Lemma batch_norm_fresh_eval_witness :
  exists out : Norms.tensor4d,
    Norms.forward (Norms.eval (Norms.__init__ 2 (/ 100000) (/ 10))) Norms.x_1_2_1_2
    = Ok (out, Norms.eval (Norms.__init__ 2 (/ 100000) (/ 10))) /\
    (Norms.batch out, Norms.chans out, Norms.height out, Norms.width out)
    = (Norms.batch Norms.x_1_2_1_2, Norms.chans Norms.x_1_2_1_2,
       Norms.height Norms.x_1_2_1_2, Norms.width Norms.x_1_2_1_2) /\
    forall i c j l : nat, (c < 2)%nat ->
      Norms.at4 out i c j l = Norms.at4 Norms.x_1_2_1_2 i c j l / (1 + / 100000).
Proof.
  apply (batch_norm_fresh_eval 2 (/ 100000) (/ 10) Norms.x_1_2_1_2).
  reflexivity.
Defined.

(* ================================================================== *)
(** * ALiBi: construction, slopes and the mask *)

Section AlibiFacts.

Import Alibi.

Lemma firstn_seq_le (k n s : nat) : (k <= n)%nat -> firstn k (seq s n) = seq s k.
Proof.
  revert n s. induction k as [|k IH]; intros n s Hk.
  - reflexivity.
  - destruct n as [|n]; [lia|]. simpl. f_equal. apply IH. lia.
Qed.

Lemma cumsum_from_length (v : vec) : forall acc, length (cumsum_from acc v) = length v.
Proof.
  induction v as [|x v IH]; intros acc; simpl; [reflexivity|]. now rewrite IH.
Qed.

Lemma cumsum_from_nth (v : vec) :
  forall (acc : R) (j : nat), (j < length v)%nat ->
    nth j (cumsum_from acc v) 0 = acc + Rsum (firstn (S j) v).
Proof.
  induction v as [|x v IH]; intros acc j Hj; simpl in Hj; [lia|].
  destruct j as [|j].
  - simpl. lra.
  - cbn [cumsum_from nth]. rewrite IH by lia.
    cbn [firstn Rsum fold_right]. fold (Rsum (firstn (S j) v)). lra.
Qed.

(** The number of positions strictly after [i] among the first [k]. *)
Lemma Rsum_after (i k : nat) :
  Rsum (tab1 k (fun j => if (i <? j)%nat then 1 else 0)) = INR (k - S i).
Proof.
  unfold tab1. induction k as [|k IH].
  - reflexivity.
  - rewrite seq_S, map_app, Rsum_app, IH. cbn [map Rsum fold_right Nat.add].
    destruct (Nat.ltb_spec i k) as [Hlt|Hge].
    + replace (S k - S i)%nat with (S (k - S i)) by lia. rewrite S_INR. lra.
    + replace (S k - S i)%nat with 0%nat by lia.
      replace (k - S i)%nat with 0%nat by lia. simpl. lra.
Qed.

Lemma cumsum_after (i n : nat) :
  cumsum (tab1 n (fun j => if (i <? j)%nat then 1 else 0)) =
  tab1 n (fun j => INR (j - i)).
Proof.
  apply nth_ext with (d := 0) (d' := 0).
  - unfold cumsum. now rewrite cumsum_from_length, !tab1_length.
  - unfold cumsum. rewrite cumsum_from_length, tab1_length. intros j Hj.
    rewrite cumsum_from_nth by now rewrite tab1_length.
    rewrite tab1_nth by assumption.
    unfold tab1 at 1. rewrite firstn_map, firstn_seq_le by lia.
    fold (tab1 (S j) (fun j0 => if (i <? j0)%nat then 1 else 0)).
    rewrite Rsum_after. simpl Nat.sub. lra.
Qed.

Lemma triu1_ones (n : nat) :
  triu1 0 (ones n) = tab2 n n (fun i j => if (i <? j)%nat then 1 else 0).
Proof.
  unfold triu1, ones, tab2, tab1. rewrite repeat_length.
  apply map_ext_in. intros i Hi. apply in_seq in Hi.
  rewrite nth_repeat_lt by lia. rewrite repeat_length.
  apply map_ext_in. intros j Hj. apply in_seq in Hj.
  now rewrite nth_repeat_lt by lia.
Qed.

(** The distances to the past, negated: the mask before the infinities. *)
Lemma distances (n : nat) :
  (0 < n)%nat ->
  transpose (map (fun row => map Ropp (cumsum row)) (triu1 0 (ones n))) =
  tab2 n n (fun i j => - INR (i - j)).
Proof.
  intros Hn. rewrite triu1_ones.
  replace (map (fun row => map Ropp (cumsum row))
               (tab2 n n (fun i j => if (i <? j)%nat then 1 else 0)))
    with (tab2 n n (fun i j => - INR (j - i))).
  - now rewrite transpose_tab2.
  - unfold tab2. rewrite map_map. apply map_ext. intros i.
    rewrite cumsum_after. unfold tab1. now rewrite map_map.
Qed.

Lemma fmul_one_neg_inf : fmul (Fin 1) NegInf = NegInf.
Proof.
  unfold fmul, by_sign. destruct (Rlt_dec 0 1); [reflexivity|lra].
Qed.

Lemma fmul_neg_inf_pos (m : R) : 0 < m -> fmul NegInf (Fin m) = NegInf.
Proof.
  intros Hm. unfold fmul, by_sign. destruct (Rlt_dec 0 m); [reflexivity|lra].
Qed.

Lemma regular_mask_entries (n : nat) :
  regular_mask n =
  map (fun i => map (fun j => if (i <? j)%nat then NegInf else Fin 0) (seq 0 n)) (seq 0 n).
Proof.
  unfold regular_mask, triu1, ones.
  rewrite length_map, repeat_length.
  apply map_ext_in. intros i Hi. apply in_seq in Hi.
  rewrite (nth_map_default _ _ i []) by (rewrite repeat_length; lia).
  rewrite nth_repeat_lt by lia. rewrite length_map, repeat_length.
  apply map_ext_in. intros j Hj. apply in_seq in Hj.
  destruct (i <? j)%nat; [|reflexivity].
  rewrite (nth_map_default _ _ j 0) by (rewrite repeat_length; lia).
  rewrite nth_repeat_lt by lia. apply fmul_one_neg_inf.
Qed.

Lemma mask_entries (n : nat) :
  (0 < n)%nat ->
  add_mask (transpose (map (fun row => map Ropp (cumsum row)) (triu1 0 (ones n))))
           (regular_mask n) =
  map (fun i => map (fun j => if (i <? j)%nat then NegInf else Fin (- INR (i - j)))
                    (seq 0 n)) (seq 0 n).
Proof.
  intros Hn. rewrite distances, regular_mask_entries by assumption.
  unfold add_mask, tab2, tab1. rewrite combine_map_same, map_map.
  apply map_ext. intros i. cbn [fst snd].
  rewrite combine_map_same, map_map. apply map_ext. intros j. cbn [fst snd].
  destruct (Nat.ltb_spec i j) as [Hlt|Hge].
  - reflexivity.
  - simpl. f_equal. lra.
Qed.

Lemma m_list_of_length (nh : nat) : length (m_list_of nh) = nh.
Proof.
  unfold m_list_of. destruct (nh <=? 8)%nat; now rewrite length_map, length_seq.
Qed.

Lemma m_list_of_nth (nh h : nat) :
  (h < nh)%nat ->
  nth h (m_list_of nh) 0 =
  if (nh <=? 8)%nat then 1 / 2 ^ h else 1 / Rpower 2 (INR h / 2).
Proof.
  intros Hh. unfold m_list_of. destruct (nh <=? 8)%nat.
  - apply (tab1_nth nh (fun i => 1 / 2 ^ i)), Hh.
  - apply (tab1_nth nh (fun i => 1 / Rpower 2 (INR i / 2))), Hh.
Qed.

Lemma m_list_of_range (nh h : nat) :
  (h < nh)%nat -> 0 < nth h (m_list_of nh) 0 <= 1.
Proof.
  intros Hh. rewrite m_list_of_nth by assumption. destruct (nh <=? 8)%nat.
  - assert (H1 : 1 <= 2 ^ h) by (apply pow_R1_Rle; lra).
    split.
    + apply Rdiv_lt_0_compat; lra.
    + apply Rmult_le_reg_r with (2 ^ h); [lra|].
      unfold Rdiv. rewrite Rmult_assoc, Rinv_l by lra. lra.
  - assert (H1 : 1 <= Rpower 2 (INR h / 2)).
    { rewrite <- (Rpower_O 2) by lra. apply Rle_Rpower; [lra|].
      pose proof (pos_INR h). lra. }
    split.
    + apply Rdiv_lt_0_compat; lra.
    + apply Rmult_le_reg_r with (Rpower 2 (INR h / 2)); [lra|].
      unfold Rdiv. rewrite Rmult_assoc, Rinv_l by lra. lra.
Qed.

End AlibiFacts.



(** X22: the head slopes [m_list] number [num_heads], start at 1, lie in
    (0, 1] and strictly decrease from each head to the next. *)
Theorem alibi_m_list_slopes (num_heads : nat) :
  length (Alibi.m_list_of num_heads) = num_heads /\
  ((0 < num_heads)%nat -> nth 0 (Alibi.m_list_of num_heads) 0 = 1) /\
  (forall h : nat, (h < num_heads)%nat -> 0 < nth h (Alibi.m_list_of num_heads) 0 <= 1) /\
  (forall h : nat, (S h < num_heads)%nat ->
     nth (S h) (Alibi.m_list_of num_heads) 0 < nth h (Alibi.m_list_of num_heads) 0).
Proof.
  split; [apply m_list_of_length|]. split; [|split].
  - intros Hn. rewrite m_list_of_nth by assumption.
    destruct (num_heads <=? 8)%nat.
    + simpl. lra.
    + replace (INR 0 / 2) with 0 by (simpl; lra). rewrite Rpower_O by lra. lra.
  - apply m_list_of_range.
  - intros h Hh. rewrite !m_list_of_nth by lia.
    destruct (num_heads <=? 8)%nat.
    + assert (H1 : 0 < 2 ^ h) by (apply pow_lt; lra).
      change (2 ^ S h) with (2 * 2 ^ h).
      apply Rmult_lt_reg_r with (2 * 2 ^ h); [lra|].
      unfold Rdiv. rewrite Rmult_assoc, Rinv_l by lra.
      replace (1 * / 2 ^ h * (2 * 2 ^ h)) with (2 * (/ 2 ^ h * 2 ^ h)) by ring.
      rewrite Rinv_l by lra. lra.
    + assert (Hlt : Rpower 2 (INR h / 2) < Rpower 2 (INR (S h) / 2)).
      { apply Rpower_lt; [lra|]. rewrite S_INR. lra. }
      assert (H0 : 0 < Rpower 2 (INR h / 2)) by apply exp_pos.
      unfold Rdiv at 1 3. rewrite !Rmult_1_l.
      apply Rinv_lt_contravar; [|assumption].
      apply Rmult_lt_0_compat; lra.
Qed.

(** X23: the mask of a constructed layer has axes (1, num_heads, seq, seq);
    for head [h], query position [i] and key position [j] its entry is minus
    infinity when [j] lies after [i], and - (i - j) times the slope of the
    head otherwise: no position attends to a later one, and the bias grows
    linearly with the distance to the past. *)
Theorem alibi_mask_entries
    (hidden_size num_heads : nat) (head_size : option nat) (dropout : R)
    (layer : Alibi.AlibiUnidirectionalAttention) (n h i j : nat) :
  Alibi.__init__ hidden_size num_heads head_size dropout = Alibi.Returns layer ->
  (h < num_heads)%nat -> (i < n)%nat -> (j < n)%nat ->
  length (Alibi.get_alibi_mask layer n) = 1%nat /\
  length (nth 0 (Alibi.get_alibi_mask layer n) []) = num_heads /\
  Alibi.at4 (Alibi.get_alibi_mask layer n) 0 h i j =
    if (i <? j)%nat then Alibi.NegInf
    else Alibi.Fin (- INR (i - j) * nth h (Alibi.m_list layer) 0).
Proof.
  intros Hinit Hh Hi Hj.
  assert (Hl : Alibi.num_heads layer = num_heads /\
               Alibi.m_list layer = Alibi.m_list_of num_heads).
  { unfold Alibi.__init__ in Hinit.
    destruct (Nat.eqb num_heads 0); [discriminate|].
    destruct (negb (Nat.eqb (hidden_size mod num_heads) 0)); [discriminate|].
    cbv zeta in Hinit.
    destruct (Nat.eqb _ 0); [discriminate|].
    destruct (Rlt_dec dropout 0); [discriminate|].
    destruct (Rlt_dec 1 dropout); [discriminate|].
    inversion Hinit; subst. split; reflexivity. }
  destruct Hl as [Hnh Hml].
  unfold Alibi.get_alibi_mask. cbv zeta.
  rewrite mask_entries by lia. rewrite Hnh, Hml.
  split; [reflexivity|]. split.
  - cbn [nth]. now rewrite length_map, length_seq.
  - unfold Alibi.at4. cbn [nth].
    rewrite (nth_map_default _ _ h 0%nat) by now rewrite length_seq.
    rewrite seq_nth by assumption. cbn [Nat.add].
    rewrite (nth_map_default _ _ i []) by now rewrite length_map, length_seq.
    rewrite (nth_map_default _ _ i 0%nat) by now rewrite length_seq.
    rewrite seq_nth by assumption. cbn [Nat.add].
    rewrite (nth_map_default _ _ j Alibi.NaN) by now rewrite length_map, length_seq.
    rewrite (nth_map_default _ _ j 0%nat) by now rewrite length_seq.
    rewrite seq_nth by assumption. cbn [Nat.add].
    destruct (i <? j)%nat.
    + apply fmul_neg_inf_pos. now apply m_list_of_range.
    + reflexivity.
Qed.

Lemma alibi_mask_entries_witness :
  length (Alibi.get_alibi_mask
            (Alibi.mkAlibi 16 8 2 (1 / sqrt (INR 2)) (/ 10) (Alibi.m_list_of 8)) 5) = 1%nat /\
  length (nth 0 (Alibi.get_alibi_mask
            (Alibi.mkAlibi 16 8 2 (1 / sqrt (INR 2)) (/ 10) (Alibi.m_list_of 8)) 5) [])
  = 8%nat /\
  Alibi.at4 (Alibi.get_alibi_mask
            (Alibi.mkAlibi 16 8 2 (1 / sqrt (INR 2)) (/ 10) (Alibi.m_list_of 8)) 5) 0 1 3 1 =
    if (3 <? 1)%nat then Alibi.NegInf
    else Alibi.Fin (- INR (3 - 1)
                    * nth 1 (Alibi.m_list
                               (Alibi.mkAlibi 16 8 2 (1 / sqrt (INR 2)) (/ 10)
                                  (Alibi.m_list_of 8))) 0).
Proof.
  apply (alibi_mask_entries 16 8 None (/ 10)
           (Alibi.mkAlibi 16 8 2 (1 / sqrt (INR 2)) (/ 10) (Alibi.m_list_of 8)) 5 1 3 1).
  - unfold Alibi.__init__. simpl Nat.eqb. simpl negb. cbv iota zeta.
    change (Nat.eqb (16 / 8) 0) with false. cbv iota.
    destruct (Rlt_dec (/ 10) 0) as [H|_]; [lra|].
    destruct (Rlt_dec 1 (/ 10)) as [H|_]; [lra|].
    reflexivity.
  - lia.
  - lia.
  - lia.
Defined.
